(** * prepare_data.py: feature preparation for the sleep-state series

    A shallow embedding of [run/prepare_data.py] and the properties its
    specification states about it.

    Conventions of the embedding.
    - A polars expression ([pl.Expr]) is denoted by its output name, the
      columns it reads and its value at one row; a frame is a schema with
      a list of rows.
    - [Float32] columns carry IEEE binary32 values ([spec_float] at
      precision 24), with the arithmetic of [SpecFloat]; Python [float]
      literals are binary64 values, cast to the column's type where an
      expression mixes them with a [Float32] column.
    - [Float64] results of the transcendental functions ([sin], [cos],
      [exp], [sqrt]) are idealised as real numbers: equalities on them are
      equalities of the exact values, which is what "within floating-point
      tolerance" abstracts from.
    - Integers are unbounded ([Z]); [%] and [//] are the floored operations.
    - The file system, standard output and the order of the I/O operations
      are an explicit state threaded through a state-and-exception monad;
      a Python exception is the [Raise] result. *)

From Stdlib Require Import ZArith Floats Reals Lra Lia Ascii.
From stdpp Require Import gmap strings list fin_maps.

Set Warnings "-inexact-float".

Open Scope Z_scope.

(** ** Exceptions and results *)

(** A path is the list of its components. *)
Abbreviation path := (list string).

Inductive exn :=
| ValueError (msg : string)
| NameError (name : string)
| KeyError (key : Z)
| TypeError (msg : string)
| ColumnNotFoundError (name : string)
| ComputeError (msg : string)
| FileNotFoundError (p : path)
| NotADirectoryError (p : path)
| FileExistsError (p : path)
| IsADirectoryError (p : path).

Inductive res (A : Type) :=
| Ok (a : A)
| Raise (e : exn).
Arguments Ok {A} a.
Arguments Raise {A} e.

#[global] Instance res_ret : MRet res := fun A a => Ok a.
#[global] Instance res_bind : MBind res := fun A B f m =>
  match m with
  | Ok a => f a
  | Raise e => Raise e
  end.
#[global] Instance res_fmap : FMap res := fun A B f m =>
  match m with
  | Ok a => Ok (f a)
  | Raise e => Raise e
  end.

(** ** Module constants (lines 13-69) *)

Inductive dtype := Utf8 | UInt32 | Float32.

Definition SERIES_SCHEMA : list (string * dtype) :=
  [ ("series_id", Utf8); ("step", UInt32);
    ("anglez", Float32); ("enmo", Float32) ].

Definition FEATURE_NAMES : list string :=
  [ "anglez"; "enmo"; "hour_sin"; "hour_cos";
    "signal_awake"; "signal_onset"; "signal_poly" ].

Definition ANGLEZ_MEAN : float := (-8.810476)%float.
Definition ANGLEZ_STD : float := 35.521877%float.
Definition ENMO_MEAN : float := 0.041315%float.
Definition ENMO_STD : float := 0.101829%float.

(** The keyword dictionaries passed as [**onset_features] and
    [**awake_features]. *)
Record mixture_features := {
  w1 : R;
  mu1 : R;
  sigma1 : R;
  mu2 : R;
  sigma2 : R
}.

Definition onset_features : mixture_features := {|
  w1 := 0.97292814;
  mu1 := 2.12861738;
  sigma1 := 1.699476;
  mu2 := 22.7643724;
  sigma2 := 0.42483832
|}.

Definition awake_features : mixture_features := {|
  w1 := 0.47799486;
  mu1 := 10.89539674;
  sigma1 := 0.87151052;
  mu2 := 11.82689931;
  sigma2 := 2.06792452
|}.

Definition coefficients : list R :=
  [ 0.7498337722857453; -0.29120336781669365;
    0.0325499456141388; -0.000865744935362603 ]%R.

(** ** The signal tables (lines 72-82) *)

(** [coefficients[i]]. *)
Definition coefficient (i : nat) : R := nth i coefficients 0%R.

Definition poly_fit (time : R) : R :=
  (coefficient 0%nat + coefficient 1%nat * time + coefficient 2%nat * time ^ 2
   + coefficient 3%nat * time ^ 3)%R.

(** [scipy.stats.norm.pdf(x, loc, scale)] for a positive [scale]: the
    standard normal density [exp(-y**2/2) / sqrt(2*pi)] at
    [y = (x - loc) / scale], divided by [scale]. *)
Definition norm_pdf (x loc scale : R) : R :=
  (exp (- ((x - loc) / scale) ^ 2 / 2) / sqrt (2 * PI) / scale)%R.

Definition calc_mixture_gaussian (time w1 mu1 sigma1 mu2 sigma2 : R) : R :=
  (w1 * norm_pdf time mu1 sigma1 + (1 - w1) * norm_pdf time mu2 sigma2)%R.

(** The call [calc_mixture_gaussian(time, **features)]. *)
Definition calc_mixture_gaussian_kw (time : R) (features : mixture_features) : R :=
  calc_mixture_gaussian time (w1 features) (mu1 features) (sigma1 features)
    (mu2 features) (sigma2 features).

(** [np.arange(0, 240)]. *)
Definition new_time_units : list Z := seqZ 0 240.

(** A dictionary comprehension [{k: f(k) for k in keys}]: the keys are
    inserted in order, a later one replacing an equal earlier one. *)
Definition dict_comprehension (f : Z → R) (keys : list Z) : gmap Z R :=
  foldl (fun d k => <[k := f k]> d) ∅ keys.

Definition signal_awake_dict : gmap Z R :=
  dict_comprehension
    (fun hour => calc_mixture_gaussian_kw (IZR hour / 10) awake_features)
    new_time_units.

Definition signal_onset_dict : gmap Z R :=
  dict_comprehension
    (fun hour => calc_mixture_gaussian_kw (IZR hour / 10) onset_features)
    new_time_units.

Definition signal_poly_dict : gmap Z R :=
  dict_comprehension (fun hour => poly_fit (IZR hour / 10)) new_time_units.

(** ** Column values and expressions *)

(** [Float32] arithmetic: IEEE binary32, round to nearest even. *)
Definition f32_sub : spec_float → spec_float → spec_float := SFsub 24 128.
Definition f32_mul : spec_float → spec_float → spec_float := SFmul 24 128.
Definition f32_div : spec_float → spec_float → spec_float := SFdiv 24 128.

(** The cast of a Python [float] (binary64) to [Float32]. *)
Definition cast_f32 (c : float) : spec_float :=
  match Prim2SF c with
  | S754_finite s m e => binary_round 24 128 s m e
  | x => x
  end.

(** The exact value of a finite binary64 number. *)
Definition float_R (c : float) : R :=
  match Prim2SF c with
  | S754_finite s m e => (IZR (cond_Zopp s (Zpos m)) * powerRZ 2 e)%R
  | _ => 0%R
  end.

Inductive value :=
| VStr (s : string)
| VF32 (x : spec_float)
| VF64 (x : R)
| VInt (n : Z)
| VDatetime (us : Z).

(** A row read through the schema: column name and value, in column
    order. *)
Definition row_env := list (string * value).

Fixpoint assoc (name : string) (env : row_env) : option value :=
  match env with
  | [] => None
  | (n, v) :: env' => if decide (n = name) then Some v else assoc name env'
  end.

(** An expression: the name of the column it produces, the columns of
    the frame that it reads, and its value on a row. *)
Record Expr := {
  out_name : string;
  roots : list string;
  eval : row_env → res value
}.

(** [pl.col(name)]. *)
Definition col (name : string) : Expr := {|
  out_name := name;
  roots := [name];
  eval := fun env =>
    match assoc name env with
    | Some v => Ok v
    | None => Raise (ColumnNotFoundError name)
    end
|}.

(** [e.alias(name)]. *)
Definition alias (e : Expr) (name : string) : Expr :=
  {| out_name := name; roots := roots e; eval := eval e |}.

(** An elementwise operation keeps the name of its (left) operand. *)
Definition elementwise (op : value → res value) (e : Expr) : Expr :=
  {| out_name := out_name e; roots := roots e;
     eval := fun env => eval e env ≫= op |}.

Definition not_numeric {A} : res A :=
  Raise (ComputeError "arithmetic on a column that is not numeric").

(** [e - c], [e / c] and [c * e] for a Python [float] [c]. *)
Definition sub_float (c : float) (v : value) : res value :=
  match v with
  | VF32 x => Ok (VF32 (f32_sub x (cast_f32 c)))
  | VF64 x => Ok (VF64 (x - float_R c))
  | VInt n => Ok (VF64 (IZR n - float_R c))
  | _ => not_numeric
  end.

Definition div_float (c : float) (v : value) : res value :=
  match v with
  | VF32 x => Ok (VF32 (f32_div x (cast_f32 c)))
  | VF64 x => Ok (VF64 (x / float_R c))
  | VInt n => Ok (VF64 (IZR n / float_R c))
  | _ => not_numeric
  end.

Definition rmul_float (c : float) (v : value) : res value :=
  match v with
  | VF32 x => Ok (VF32 (f32_mul (cast_f32 c) x))
  | VF64 x => Ok (VF64 (float_R c * x))
  | VInt n => Ok (VF64 (float_R c * IZR n))
  | _ => not_numeric
  end.

(** Integer arithmetic with a Python [int]: [e * k], [e // k], [e % k]. *)
Definition mul_int (k : Z) (v : value) : res value :=
  match v with
  | VInt n => Ok (VInt (n * k))
  | _ => not_numeric
  end.

Definition floordiv_int (k : Z) (v : value) : res value :=
  match v with
  | VInt n =>
      if decide (k = 0) then Raise (ComputeError "division by zero")
      else Ok (VInt (n `div` k))
  | _ => not_numeric
  end.

Definition mod_int (k : Z) (v : value) : res value :=
  match v with
  | VInt n =>
      if decide (k = 0) then Raise (ComputeError "division by zero")
      else Ok (VInt (n `mod` k))
  | _ => not_numeric
  end.

(** [c * e] for a [Float64] constant and [e / k] (true division) for a
    Python [int], both with a [Float64] result. *)
Definition rmul_real (c : R) (v : value) : res value :=
  match v with
  | VInt n => Ok (VF64 (c * IZR n))
  | VF64 x => Ok (VF64 (c * x))
  | _ => not_numeric
  end.

Definition truediv_int (k : Z) (v : value) : res value :=
  match v with
  | VInt n => Ok (VF64 (IZR n / IZR k))
  | VF64 x => Ok (VF64 (x / IZR k))
  | _ => not_numeric
  end.

Definition sin_value (v : value) : res value :=
  match v with
  | VF64 x => Ok (VF64 (sin x))
  | VInt n => Ok (VF64 (sin (IZR n)))
  | _ => not_numeric
  end.

Definition cos_value (v : value) : res value :=
  match v with
  | VF64 x => Ok (VF64 (cos x))
  | VInt n => Ok (VF64 (cos (IZR n)))
  | _ => not_numeric
  end.

(** [e1 + e2] on integer columns. *)
Definition expr_add (e1 e2 : Expr) : Expr := {|
  out_name := out_name e1;
  roots := roots e1 ++ roots e2;
  eval := fun env =>
    v1 ← eval e1 env;
    v2 ← eval e2 env;
    match v1, v2 with
    | VInt a, VInt b => Ok (VInt (a + b))
    | _, _ => not_numeric
    end
|}.

(** [e.dt.hour()] and [e.dt.minute()] of a [Datetime] column: the instant
    is a count of microseconds since the epoch. *)
Definition dt_hour (v : value) : res value :=
  match v with
  | VDatetime us => Ok (VInt ((us `div` 3600000000) `mod` 24))
  | _ => Raise (ComputeError "dt.hour on a column that is not temporal")
  end.

Definition dt_minute (v : value) : res value :=
  match v with
  | VDatetime us => Ok (VInt ((us `div` 60000000) `mod` 60))
  | _ => Raise (ComputeError "dt.minute on a column that is not temporal")
  end.

(** [e.map(d)] for a dictionary [d].  [Expr.map] takes a function that is
    called on the column; a dictionary is not callable, so the expression
    that it builds has no value on any row. *)
Definition map_dict (d : gmap Z R) (e : Expr) : Expr := {|
  out_name := out_name e;
  roots := roots e;
  eval := fun _ => Raise (TypeError "'dict' object is not callable")
|}.

(** [pl.Series(e)] for an expression [e]: the constructor takes the values
    of a column and refuses an expression.  The class and the text of the
    exception vary with the version of polars; the properties of
    [add_feature] depend only on the constructor raising. *)
Definition Series_of_Expr (e : Expr) : res Expr :=
  Raise (TypeError "Series constructor called with unsupported type 'Expr'").

(** ** The circular encoding (lines 85-90) *)

(** The angle [rad] of line 86: [2 * np.pi * (x % max_) / max_]. *)
Definition to_coord_rad (x : Expr) (max_ : Z) : Expr :=
  elementwise (truediv_int max_)
    (elementwise (rmul_real (2 * PI)) (elementwise (mod_int max_) x)).

Definition to_coord (x : Expr) (max_ : Z) (name : string) : list Expr :=
  let rad := to_coord_rad x max_ in
  let x_sin := elementwise sin_value rad in
  let x_cos := elementwise cos_value rad in
  [ alias x_sin (name +:+ "_sin"); alias x_cos (name +:+ "_cos") ].

(** The definition of lines 93-94.  It is commented out in the source, so
    the module binds no such name; [main] still calls it. *)
Definition deg_to_rad (x : Expr) : Expr :=
  elementwise (rmul_float (PrimFloat.div 3.141592653589793%float 180%float)) x.

(** ** Frames *)

Record DataFrame := {
  schema : list string;
  rows : list (list value)
}.

Definition env_of (df : DataFrame) (r : list value) : row_env :=
  zip (schema df) r.

Definition height (df : DataFrame) : nat := length (rows df).

(** Assignment of a column in a row: an existing column is replaced in
    place, a new one is appended. *)
Fixpoint set_col (name : string) (v : value) (env : row_env) : row_env :=
  match env with
  | [] => [(name, v)]
  | (n, w) :: env' =>
      if decide (n = name) then (n, v) :: env'
      else (n, w) :: set_col name v env'
  end.

Fixpoint set_name (name : string) (names : list string) : list string :=
  match names with
  | [] => [name]
  | n :: names' =>
      if decide (n = name) then names else n :: set_name name names'
  end.

(** The first of the names that is not a column of the frame. *)
Definition missing_column (df : DataFrame) (names : list string) : option string :=
  snd <$> list_find (fun n => n ∉ schema df) names.

(** [df.with_columns] on a list of expressions: the columns that the
    expressions read are looked up in the schema, whatever the rows; then
    every expression is evaluated on the frame as it is before the
    call. *)
Definition with_columns_row (exprs : list Expr) (env : row_env) : res row_env :=
  vals ← mapM (fun e => eval e env) exprs;
  Ok (foldl (fun acc nv => set_col nv.1 nv.2 acc) env
        (zip (out_name <$> exprs) vals)).

Definition with_columns (df : DataFrame) (exprs : list Expr) : res DataFrame :=
  match missing_column df (concat (roots <$> exprs)) with
  | Some n => Raise (ColumnNotFoundError n)
  | None =>
      envs ← mapM (fun r => with_columns_row exprs (env_of df r)) (rows df);
      Ok {| schema := foldl (fun acc e => set_name (out_name e) acc) (schema df) exprs;
            rows := (fun env => env.*2) <$> envs |}
  end.

Definition lookup_col (name : string) (env : row_env) : res value :=
  match assoc name env with
  | Some v => Ok v
  | None => Raise (ColumnNotFoundError name)
  end.

(** [df.select] on a list of column names. *)
Definition select (df : DataFrame) (names : list string) : res DataFrame :=
  match list_find (fun n => n ∉ schema df) names with
  | Some (_, n) => Raise (ColumnNotFoundError n)
  | None =>
      rs ← mapM (fun r => mapM (fun n => lookup_col n (env_of df r)) names)
             (rows df);
      Ok {| schema := names; rows := rs |}
  end.

(** [df.get_column(name)]. *)
Definition get_column (df : DataFrame) (name : string) : res (list value) :=
  if decide (name ∈ schema df)
  then mapM (fun r => lookup_col name (env_of df r)) (rows df)
  else Raise (ColumnNotFoundError name).

(** [s.to_numpy(zero_copy_only=True)]: a column of strings has no
    zero-copy array view. *)
Definition is_string (v : value) : bool :=
  match v with
  | VStr _ => true
  | _ => false
  end.

Definition to_numpy (s : list value) : res (list value) :=
  if existsb is_string s
  then Raise (ValueError "cannot return a zero-copy array")
  else Ok s.

(** The sort key of [sort(by=["series_id", "timestamp"])]. *)
Definition sort_key (df : DataFrame) (r : list value) : res (string * Z) :=
  id ← lookup_col "series_id" (env_of df r);
  ts ← lookup_col "timestamp" (env_of df r);
  match id, ts with
  | VStr s, VDatetime us => Ok (s, us)
  | _, _ => Raise (ComputeError "sort key outside the series schema")
  end.

Definition key_leb (k1 k2 : string * Z) : bool :=
  match String.compare k1.1 k2.1 with
  | Lt => true
  | Eq => bool_decide (k1.2 ≤ k2.2)
  | Gt => false
  end.

(** Stable insertion: [x] goes before the first element that is not
    smaller than it. *)
Fixpoint insert_sorted {A} (x : (string * Z) * A) (l : list ((string * Z) * A))
  : list ((string * Z) * A) :=
  match l with
  | [] => [x]
  | y :: l' =>
      if key_leb x.1 y.1 then x :: l else y :: insert_sorted x l'
  end.

Definition sort (df : DataFrame) : res DataFrame :=
  match missing_column df ["series_id"; "timestamp"] with
  | Some n => Raise (ColumnNotFoundError n)
  | None =>
      keyed ← mapM (fun r => k ← sort_key df r; Ok (k, r)) (rows df);
      Ok {| schema := schema df;
            rows := (foldr insert_sorted [] keyed).*2 |}
  end.

(** [df.group_by("series_id")]: one frame per key, the rows of a group in
    the order of the frame; groups in the order of their first row. *)
Fixpoint add_to_group (k : string) (r : list value)
    (groups : list (string * list (list value)))
  : list (string * list (list value)) :=
  match groups with
  | [] => [(k, [r])]
  | (k', rs) :: groups' =>
      if decide (k' = k) then (k', rs ++ [r]) :: groups'
      else (k', rs) :: add_to_group k r groups'
  end.

Definition series_id_of (df : DataFrame) (r : list value) : res string :=
  id ← lookup_col "series_id" (env_of df r);
  match id with
  | VStr s => Ok s
  | _ => Raise (ComputeError "series_id is not a string")
  end.

Definition group_by (df : DataFrame) : res (list (string * DataFrame)) :=
  match missing_column df ["series_id"] with
  | Some n => Raise (ColumnNotFoundError n)
  | None =>
      keyed ← mapM (fun r => k ← series_id_of df r; Ok (k, r)) (rows df);
      Ok ((fun g => (g.1, {| schema := schema df; rows := g.2 |}))
            <$> foldl (fun groups kr => add_to_group kr.1 kr.2 groups) [] keyed)
  end.

(** [df.get_column("series_id").n_unique()]. *)
Definition n_unique (df : DataFrame) : res nat :=
  match missing_column df ["series_id"] with
  | Some n => Raise (ColumnNotFoundError n)
  | None =>
      ids ← mapM (series_id_of df) (rows df);
      Ok (length (remove_dups ids))
  end.

(** ** Feature assembly (lines 97-111) *)

Definition hour_plus_minute : Expr :=
  expr_add
    (elementwise (mul_int 10) (elementwise dt_hour (col "timestamp")))
    (elementwise (floordiv_int 6) (elementwise dt_minute (col "timestamp"))).

(** The arguments of the second [with_columns] are evaluated before the
    call, from left to right: each is [pl.Series] applied to the
    expression that [map] builds, and then renamed. *)
Definition add_feature (series_df : DataFrame) : res DataFrame :=
  series_df ← with_columns series_df
    (to_coord (elementwise dt_hour (col "timestamp")) 24 "hour");
  signal_awake ← Series_of_Expr (map_dict signal_awake_dict hour_plus_minute);
  signal_onset ← Series_of_Expr (map_dict signal_onset_dict hour_plus_minute);
  signal_poly ← Series_of_Expr (map_dict signal_poly_dict hour_plus_minute);
  series_df ← with_columns series_df
    [ alias signal_awake "signal_awake";
      alias signal_onset "signal_onset";
      alias signal_poly "signal_poly" ];
  select series_df ("series_id" :: FEATURE_NAMES).

(** ** The file system and the effects of a run *)

Inductive node :=
| Dir
| Parquet (table : DataFrame)
| Npy (array : list value).

Inductive io_event :=
| IOExists (p : path)
| IORmtree (p : path)
| IOScan (p : path)
| IOMkdir (p : path)
| IOSave (p : path).

Record world := {
  fs : gmap path node;
  io_log : list io_event;
  console : list string
}.

Definition M (A : Type) : Type := world → res A * world.

Definition ret {A} (a : A) : M A := fun w => (Ok a, w).

Definition raise {A} (e : exn) : M A := fun w => (Raise e, w).

Definition bind {A B} (m : M A) (k : A → M B) : M B := fun w =>
  match m w with
  | (Ok a, w') => k a w'
  | (Raise e, w') => (Raise e, w')
  end.

Definition lift {A} (r : res A) : M A := fun w => (r, w).

Notation "x <- m ;; k" := (bind m (fun x => k))
  (at level 100, m at next level, right associativity,
   format "'[v' x  <-  m  ;;  '/' k ']'").
Notation "m ;; k" := (bind m (fun _ => k))
  (at level 100, right associativity,
   format "'[v' m  ;;  '/' k ']'").

Fixpoint for_each {A} (l : list A) (body : A → M unit) : M unit :=
  match l with
  | [] => ret tt
  | x :: l' => body x ;; for_each l' body
  end.

Definition log_io (ev : io_event) : M unit := fun w =>
  (Ok tt, {| fs := fs w; io_log := io_log w ++ [ev]; console := console w |}).

Definition print (line : string) : M unit := fun w =>
  (Ok tt, {| fs := fs w; io_log := io_log w; console := console w ++ [line] |}).

Definition get_fs : M (gmap path node) := fun w => (Ok (fs w), w).

Definition put_fs (t : gmap path node) : M unit := fun w =>
  (Ok tt, {| fs := t; io_log := io_log w; console := console w |}).

Fixpoint contains_char (c : Ascii.ascii) (name : string) : bool :=
  match name with
  | EmptyString => false
  | String a name' => if decide (a = c) then true else contains_char c name'
  end.

(** A plain file name: one path component.  It is not empty, it is
    neither "." nor "..", it holds no separator and no NUL character, and
    it is at most 255 bytes long. *)
Definition plain_name (name : string) : bool :=
  bool_decide (name ≠ "" ∧ name ≠ "." ∧ name ≠ "..")
  && negb (contains_char "/"%char name)
  && negb (contains_char Ascii.zero name)
  && bool_decide (String.length name ≤ 255)%nat.

(** [p / name] for a plain name: the name is one more component.  For
    other strings [Path] splits the name at the separators, drops empty
    and "." components, and an absolute name replaces [p]; the properties
    of [main] that take the phase or a series identifier as a name are
    stated for plain names. *)
Definition join (p : path) (name : string) : path := p ++ [name].

(** [str(p)]. *)
Definition path_str (p : path) : string := String.concat "/" p.

Definition parent (p : path) : path := removelast p.

(** The root holds every top-level entry and always exists. *)
Definition is_dir (t : gmap path node) (p : path) : bool :=
  match p, t !! p with
  | [], _ => true
  | _, Some Dir => true
  | _, _ => false
  end.

(** [p.exists()]. *)
Definition path_exists (p : path) : M bool :=
  log_io (IOExists p) ;;
  t <- get_fs ;;
  ret (bool_decide (is_Some (t !! p))).

(** Everything at or below [p] is removed. *)
Definition remove_tree (p : path) (t : gmap path node) : gmap path node :=
  filter (fun kv => ¬ p `prefix_of` kv.1) t.

(** [shutil.rmtree(p)]. *)
Definition rmtree (p : path) : M unit :=
  log_io (IORmtree p) ;;
  t <- get_fs ;;
  match t !! p with
  | Some Dir => put_fs (remove_tree p t)
  | Some _ => raise (NotADirectoryError p)
  | None => raise (FileNotFoundError p)
  end.

(** [p.mkdir(parents=True, exist_ok=True)]: the missing directories are
    made from the top down; one that exists is kept. *)
Fixpoint make_dirs (done : path) (rest : list string) (t : gmap path node)
  : res (gmap path node) :=
  match rest with
  | [] => Ok t
  | name :: rest' =>
      let q := join done name in
      match t !! q with
      | Some Dir => make_dirs q rest' t
      | Some _ =>
          match rest' with
          | [] => Raise (FileExistsError q)
          | _ => Raise (NotADirectoryError q)
          end
      | None => make_dirs q rest' (<[q := Dir]> t)
      end
  end.

Definition mkdir (p : path) : M unit :=
  log_io (IOMkdir p) ;;
  t <- get_fs ;;
  t' <- lift (make_dirs [] p t) ;;
  put_fs t'.

(** [np.save(p, x)]: the file is created or overwritten in an existing
    directory. *)
Definition np_save (p : path) (x : list value) : M unit :=
  log_io (IOSave p) ;;
  t <- get_fs ;;
  if is_dir t (parent p) then
    match t !! p with
    | Some Dir => raise (IsADirectoryError p)
    | _ => put_fs (<[p := Npy x]> t)
    end
  else raise (FileNotFoundError p).

(** [pl.scan_parquet(p)]. *)
Definition scan_parquet (p : path) : M DataFrame :=
  log_io (IOScan p) ;;
  t <- get_fs ;;
  match t !! p with
  | Some (Parquet table) => ret table
  | Some _ => raise (ComputeError "not a parquet file")
  | None => raise (FileNotFoundError p)
  end.

(** ** The exporter (lines 130-135) *)

Definition save_each_series (this_series_df : DataFrame)
    (columns : list string) (output_dir : path) : M unit :=
  mkdir output_dir ;;
  for_each columns (fun col_name =>
    x <- lift (get_column this_series_df col_name ≫= to_numpy) ;;
    np_save (join output_dir (col_name +:+ ".npy")) x).

(** ** The driver (lines 138-190) *)

(** Modelled from the spec: the configuration class [PrepareDataConfig] of
    [src.conf], which is not part of the sources at hand.  Its
    configuration surface is [phase], [dir.data_dir] and
    [dir.processed_dir]. *)
Record DirConfig := {
  data_dir : path;
  processed_dir : path
}.

Record PrepareDataConfig := {
  dir : DirConfig;
  phase : string
}.

(** Modelled from the spec: the context manager [trace] of
    [src.utils.common], which is not part of the sources at hand.  It is
    a tracing wrapper: the body runs, an exception of the body surfaces
    to the caller, and a normal exit reports the title. *)
Definition trace {A} (title : string) (body : M A) : M A :=
  a <- body ;;
  print title ;;
  ret a.

(** [tqdm(iterable, total=n)] iterates over [iterable]. *)
Definition tqdm {A} (iterable : list A) (total : nat) : list A := iterable.

(** The names bound in the module's global scope when [main] runs: the
    imports (lines 1-11) and the assignments and definitions of lines
    13-139.  No builtin is called [deg_to_rad] either. *)
Definition module_globals : list string :=
  [ "shutil"; "Path"; "hydra"; "np"; "pl"; "norm"; "tqdm";
    "PrepareDataConfig"; "trace";
    "SERIES_SCHEMA"; "FEATURE_NAMES";
    "ANGLEZ_MEAN"; "ANGLEZ_STD"; "ENMO_MEAN"; "ENMO_STD";
    "onset_features"; "awake_features"; "coefficients";
    "poly_fit"; "calc_mixture_gaussian"; "new_time_units";
    "signal_awake_dict"; "signal_onset_dict"; "signal_poly_dict";
    "to_coord"; "add_feature"; "save_each_series"; "main" ].

(** The evaluation of a global name. *)
Definition load_global (name : string) : M unit :=
  if decide (name ∈ module_globals) then ret tt
  else raise (NameError name).

(** The normalisation expressions of lines 167-168. *)
Definition normalized_anglez : Expr :=
  elementwise (div_float ANGLEZ_STD)
    (elementwise (sub_float ANGLEZ_MEAN) (col "anglez")).

Definition normalized_enmo : Expr :=
  elementwise (div_float ENMO_STD)
    (elementwise (sub_float ENMO_MEAN) (col "enmo")).

Section Driver.

(** [strptime fmt s]: the instant that the string [s] denotes in the
    format [fmt], in microseconds since the epoch, if it matches. *)
Variable strptime : string → string → option Z.

(** [e.str.to_datetime(fmt)], strict. *)
Definition str_to_datetime (fmt : string) (v : value) : res value :=
  match v with
  | VStr s =>
      match strptime fmt s with
      | Some us => Ok (VDatetime us)
      | None => Raise (ComputeError "strict conversion to datetime failed")
      end
  | _ => Raise (ComputeError "str.to_datetime on a column that is not a string")
  end.

(** Lines 142-145. *)
Definition remove_processed_dir (cfg : PrepareDataConfig)
    (processed_dir : path) : M unit :=
  found <- path_exists processed_dir ;;
  if found : bool then
    rmtree processed_dir ;;
    print ("Removed " +:+ phase cfg +:+ " dir: " +:+ path_str processed_dir)
  else ret tt.

(** Lines 149-160. *)
Definition scan_series (cfg : PrepareDataConfig) : M DataFrame :=
  if decide (phase cfg ∈ ["train"; "test"]) then
    scan_parquet (join (data_dir (dir cfg)) (phase cfg +:+ "_series.parquet"))
  else if decide (phase cfg = "dev") then
    scan_parquet
      (join (processed_dir (dir cfg)) (phase cfg +:+ "_series.parquet"))
  else raise (ValueError ("Invalid phase: " +:+ phase cfg)).

(** Lines 163-181.  The arguments of [with_columns] are evaluated from
    left to right, the second one by a call of the global
    [deg_to_rad]. *)
Definition preprocess (series_lf : DataFrame) : M DataFrame :=
  let timestamp :=
    elementwise (str_to_datetime "%Y-%m-%dT%H:%M:%S%z") (col "timestamp") in
  load_global "deg_to_rad" ;;
  let anglez_rad := alias (deg_to_rad (col "anglez")) "anglez_rad" in
  lift (
    df ← with_columns series_lf
           [ timestamp; anglez_rad; normalized_anglez; normalized_enmo ];
    df ← select df [ "series_id"; "anglez"; "enmo"; "timestamp"; "anglez_rad" ];
    sort df).

(** Lines 147-182. *)
Definition load_series (cfg : PrepareDataConfig) : M (DataFrame * nat) :=
  series_lf <- scan_series cfg ;;
  series_df <- preprocess series_lf ;;
  n <- lift (n_unique series_df) ;;
  ret (series_df, n).

(** Lines 184-190. *)
Definition save_features (processed_dir : path) (series_df : DataFrame)
    (n : nat) : M unit :=
  groups <- lift (group_by series_df) ;;
  for_each (tqdm groups n) (fun '(series_id, this_series_df) =>
    this_series_df <- lift (add_feature this_series_df) ;;
    let series_dir := join processed_dir series_id in
    save_each_series this_series_df FEATURE_NAMES series_dir).

Definition main (cfg : PrepareDataConfig) : M unit :=
  let processed_dir := join (processed_dir (dir cfg)) (phase cfg) in
  remove_processed_dir cfg processed_dir ;;
  loaded <- trace "Load series" (load_series cfg) ;;
  trace "Save features" (save_features processed_dir loaded.1 loaded.2).

End Driver.

(** ** The closed forms of the specification *)

(** The Gaussian density as the specification writes it. *)
Definition Gaussian_pdf (t mu sigma : R) : R :=
  (exp (- (t - mu) ^ 2 / (2 * sigma ^ 2)) / (sigma * sqrt (2 * PI)))%R.

(** The mixture of two Gaussian densities of the specification. *)
Definition mixture_density (w mu_1 sigma_1 mu_2 sigma_2 t : R) : R :=
  (w * Gaussian_pdf t mu_1 sigma_1 + (1 - w) * Gaussian_pdf t mu_2 sigma_2)%R.

(** The cubic polynomial of the specification, constant term first. *)
Definition cubic (c0 c1 c2 c3 t : R) : R :=
  (c0 + c1 * t + c2 * t ^ 2 + c3 * t ^ 3)%R.

(** The Time Bucket of an hour and a minute. *)
Definition time_bucket (h m : Z) : Z := h * 10 + m `div` 6.



(** The values of the two expressions of [to_coord] on a row whose
    column [x] holds the integer [x]. *)
Definition encode (x period : Z) : list (res value) :=
  (fun e => eval e [("x", VInt x)]) <$> to_coord (col "x") period "x".

(** The input table of a valid phase. *)
Definition input_path (cfg : PrepareDataConfig) : path :=
  if decide (phase cfg ∈ ["train"; "test"])
  then join (data_dir (dir cfg)) (phase cfg +:+ "_series.parquet")
  else join (processed_dir (dir cfg)) (phase cfg +:+ "_series.parquet").

(** The output root of the phase. *)
Definition phase_dir (cfg : PrepareDataConfig) : path :=
  join (processed_dir (dir cfg)) (phase cfg).

(** The state after lines 142-145, when the output root of the phase is
    absent or a directory. *)
Definition after_removal (cfg : PrepareDataConfig) (w : world) : world :=
  if bool_decide (is_Some (fs w !! phase_dir cfg)) then
    {| fs := remove_tree (phase_dir cfg) (fs w);
       io_log := io_log w ++ [IOExists (phase_dir cfg); IORmtree (phase_dir cfg)];
       console := console w
         ++ ["Removed " +:+ phase cfg +:+ " dir: " +:+ path_str (phase_dir cfg)] |}
  else
    {| fs := fs w;
       io_log := io_log w ++ [IOExists (phase_dir cfg)];
       console := console w |}.

(** Every entry of the file system lies in a directory that exists. *)
Definition closed_fs (t : gmap path node) : Prop :=
  ∀ p q, is_Some (t !! p) → q `prefix_of` p → q ≠ [] → is_Some (t !! q).

(** The file of a feature in the directory of a series. *)
Definition feature_file (output_dir : path) (name : string) : path :=
  join output_dir (name +:+ ".npy").

(** The frame has the column [name], and no string in it. *)
Definition has_numeric_column (df : DataFrame) (name : string) : Prop :=
  name ∈ schema df
  ∧ Forall (fun r => ∃ v, assoc name (env_of df r) = Some v ∧ is_string v = false)
      (rows df).

(** The array [x] is the column [name] of the frame, row by row. *)
Definition is_column (df : DataFrame) (name : string) (x : list value) : Prop :=
  Forall2 (fun r v => assoc name (env_of df r) = Some v) (rows df) x.

(** ** Sample data *)

Definition sample_cfg (phase : string) : PrepareDataConfig :=
  {| dir := {| data_dir := ["data"]; processed_dir := ["processed"] |};
     phase := phase |}.

Definition sample_table : DataFrame := {|
  schema := ["series_id"; "step"; "anglez"; "enmo"; "timestamp"];
  rows :=
    [ [ VStr "A"; VInt 0; VF32 (cast_f32 2.5%float); VF32 (cast_f32 0.02%float);
        VStr "2020-01-01T00:00:00+0000" ];
      [ VStr "A"; VInt 1; VF32 (cast_f32 (-30)%float); VF32 (cast_f32 0.1%float);
        VStr "2020-01-01T00:00:05+0000" ] ]
|}.

(** A file system with the input tables and the output of an earlier run
    of the phase. *)
Definition sample_fs (phase : string) : gmap path node :=
  list_to_map
    [ (["data"], Dir);
      (["data"; "train_series.parquet"], Parquet sample_table);
      (["data"; "test_series.parquet"], Parquet sample_table);
      (["processed"], Dir);
      (["processed"; "dev_series.parquet"], Parquet sample_table);
      (["processed"; phase], Dir);
      (["processed"; phase; "old"], Dir);
      (["processed"; phase; "old"; "anglez.npy"], Npy [VF32 (S754_zero false)]) ].

Definition sample_world (phase : string) : world :=
  {| fs := sample_fs phase; io_log := []; console := [] |}.

Definition sample_strptime (fmt s : string) : option Z :=
  if decide (s = "2020-01-01T00:00:00+0000") then Some 1577836800000000
  else if decide (s = "2020-01-01T00:00:05+0000") then Some 1577836805000000
  else None.

(** The rows of one series as they come out of the preprocessing: the
    instants are 2020-01-01 00:00:00 and 12:07:00 UTC. *)
Definition sample_series : DataFrame := {|
  schema := ["series_id"; "anglez"; "enmo"; "timestamp"; "anglez_rad"];
  rows :=
    [ [ VStr "A"; VF32 (S754_zero false); VF32 (S754_zero false);
        VDatetime 1577836800000000; VF32 (S754_zero false) ];
      [ VStr "A"; VF32 (S754_zero false); VF32 S754_nan;
        VDatetime 1577880420000000; VF32 (S754_zero false) ] ]
|}.

(** A frame of two feature rows, with the columns that line 111 of
    [add_feature] selects. *)
Definition sample_features : DataFrame := {|
  schema := "series_id" :: FEATURE_NAMES;
  rows :=
    [ [ VStr "A"; VF32 (S754_zero false); VF32 S754_nan;
        VF64 0; VF64 1; VF64 0; VF64 0; VF64 0 ];
      [ VStr "A"; VF32 (S754_zero true); VF32 (S754_zero false);
        VF64 0; VF64 (-1); VF64 1; VF64 1; VF64 1 ] ]
|}.

(** ** The hour of an instant *)

Definition hour_of (us : Z) : Z := (us `div` 3600000000) `mod` 24.

(** The I/O operations that test for a path, delete a tree or scan an
    input: those that make or write nothing. *)
Definition reads_or_removes (ev : io_event) : bool :=
  match ev with
  | IOExists _ | IORmtree _ | IOScan _ => true
  | IOMkdir _ | IOSave _ => false
  end.

(** * Properties *)

(** ** The signal tables *)

Lemma dict_comprehension_foldl (f : Z → R) (keys : list Z) (d : gmap Z R) (k : Z) :
  foldl (fun d k => <[k := f k]> d) d keys !! k
  = if decide (k ∈ keys) then Some (f k) else d !! k.
Proof.
  revert d. induction keys as [|k' keys IH]; intros d; simpl.
  - done.
  - rewrite IH. destruct (decide (k ∈ keys)) as [Hin|Hin].
    + rewrite decide_True; [done | by apply list_elem_of_further].
    + destruct (decide (k = k')) as [->|Hne].
      * rewrite lookup_insert_eq.
        rewrite decide_True; [done | apply list_elem_of_here].
      * rewrite lookup_insert_ne by done.
        rewrite decide_False; [done |].
        intros [?|?]%elem_of_cons; done.
Qed.

Lemma dict_comprehension_lookup (f : Z → R) (keys : list Z) (k : Z) :
  k ∈ keys → dict_comprehension f keys !! k = Some (f k).
Proof.
  intros Hin. unfold dict_comprehension.
  rewrite dict_comprehension_foldl. by rewrite decide_True.
Qed.

Lemma dict_comprehension_lookup_None (f : Z → R) (keys : list Z) (k : Z) :
  k ∉ keys → dict_comprehension f keys !! k = None.
Proof.
  intros Hin. unfold dict_comprehension.
  rewrite dict_comprehension_foldl. by rewrite decide_False.
Qed.

Lemma new_time_units_spec (k : Z) : k ∈ new_time_units ↔ 0 ≤ k ≤ 239.
Proof. unfold new_time_units. rewrite elem_of_seqZ. lia. Qed.

Lemma sqrt_2PI_neq_0 : sqrt (2 * PI) ≠ 0%R.
Proof.
  intros H. apply sqrt_eq_0 in H; pose proof PI_RGT_0; lra.
Qed.

(** The density of [scipy.stats.norm] is the Gaussian density of the
    specification wherever the scale is not zero. *)
Lemma norm_pdf_Gaussian_pdf (x loc scale : R) :
  scale ≠ 0%R → norm_pdf x loc scale = Gaussian_pdf x loc scale.
Proof.
  intros Hs. unfold norm_pdf, Gaussian_pdf.
  pose proof sqrt_2PI_neq_0 as Hq.
  replace (- ((x - loc) / scale) ^ 2 / 2)%R
    with (- (x - loc) ^ 2 / (2 * scale ^ 2))%R by (field; done).
  field. done.
Qed.

Lemma calc_mixture_gaussian_mixture_density (time w mu_1 sigma_1 mu_2 sigma_2 : R) :
  sigma_1 ≠ 0%R → sigma_2 ≠ 0%R →
  calc_mixture_gaussian time w mu_1 sigma_1 mu_2 sigma_2
  = mixture_density w mu_1 sigma_1 mu_2 sigma_2 time.
Proof.
  intros H1 H2. unfold calc_mixture_gaussian, mixture_density.
  by rewrite !norm_pdf_Gaussian_pdf.
Qed.

(** C2: for every bucket [b] from 0 to 239, the tables [signal_awake_dict]
    and [signal_onset_dict] hold at [b] the value at [b/10] of the mixture
    of two Gaussian densities with the constants of the specification. *)
Theorem signal_mixture_tables_closed_form (b : Z) :
  0 ≤ b ≤ 239 →
  signal_awake_dict !! b
  = Some (mixture_density 0.47799486 10.89539674 0.87151052
            11.82689931 2.06792452 (IZR b / 10))
  ∧ signal_onset_dict !! b
    = Some (mixture_density 0.97292814 2.12861738 1.699476
              22.7643724 0.42483832 (IZR b / 10)).
Proof.
  intros Hb. apply new_time_units_spec in Hb.
  unfold signal_awake_dict, signal_onset_dict.
  rewrite !dict_comprehension_lookup by done.
  unfold calc_mixture_gaussian_kw; simpl.
  split; f_equal; apply calc_mixture_gaussian_mixture_density; lra.
Qed.

Lemma signal_mixture_tables_closed_form_witness :
  signal_awake_dict !! 125
  = Some (mixture_density 0.47799486 10.89539674 0.87151052
            11.82689931 2.06792452 (IZR 125 / 10))
  ∧ signal_onset_dict !! 125
    = Some (mixture_density 0.97292814 2.12861738 1.699476
              22.7643724 0.42483832 (IZR 125 / 10)).
Proof. apply (signal_mixture_tables_closed_form 125). lia. Defined.

(** C3: for every bucket [b] from 0 to 239, the table [signal_poly_dict]
    holds at [b] the value at [b/10] of the cubic polynomial with the
    coefficients of the specification, constant term first. *)
Theorem signal_poly_table_closed_form (b : Z) :
  0 ≤ b ≤ 239 →
  signal_poly_dict !! b
  = Some (cubic 0.7498337722857453 (-0.29120336781669365)
            0.0325499456141388 (-0.000865744935362603) (IZR b / 10)).
Proof.
  intros Hb. apply new_time_units_spec in Hb.
  unfold signal_poly_dict.
  rewrite dict_comprehension_lookup by done.
  reflexivity.
Qed.

Lemma signal_poly_table_closed_form_witness :
  signal_poly_dict !! 239
  = Some (cubic 0.7498337722857453 (-0.29120336781669365)
            0.0325499456141388 (-0.000865744935362603) (IZR 239 / 10)).
Proof. apply (signal_poly_table_closed_form 239). lia. Defined.

(** ** Time buckets *)

Lemma time_bucket_range (h m : Z) :
  0 ≤ h ≤ 23 → 0 ≤ m ≤ 59 → 0 ≤ time_bucket h m ≤ 239.
Proof.
  intros Hh Hm. unfold time_bucket.
  assert (0 ≤ m `div` 6 ≤ 9).
  { split; [apply Z.div_pos; lia |].
    apply Z.lt_succ_r, Z.div_lt_upper_bound; lia. }
  lia.
Qed.

Lemma signal_tables_total (k : Z) :
  0 ≤ k ≤ 239 →
  is_Some (signal_awake_dict !! k)
  ∧ is_Some (signal_onset_dict !! k)
  ∧ is_Some (signal_poly_dict !! k).
Proof.
  intros Hk. apply new_time_units_spec in Hk.
  unfold signal_awake_dict, signal_onset_dict, signal_poly_dict.
  rewrite !dict_comprehension_lookup by done. eauto.
Qed.

(** The value of the expression [hour_plus_minute] of [add_feature] is
    the Time Bucket of the hour and the minute of the row's instant. *)
Lemma hour_plus_minute_eval (env : row_env) (us : Z) :
  assoc "timestamp" env = Some (VDatetime us) →
  eval hour_plus_minute env
  = Ok (VInt (time_bucket ((us `div` 3600000000) `mod` 24)
                          ((us `div` 60000000) `mod` 60))).
Proof. intros Hts. unfold hour_plus_minute. simpl. by rewrite Hts. Qed.

(** C5: for an hour in 0..23 and a minute in 0..59 the Time Bucket
    [h*10 + m//6] lies in 0..239; each of the three tables has an entry
    for every key from 0 to 239; and on every row with an instant, the key
    that the expression [hour_plus_minute] of [add_feature] computes is in
    that range, where each of the three tables has an entry. *)
Theorem time_bucket_tables_total (h m : Z) :
  0 ≤ h ≤ 23 → 0 ≤ m ≤ 59 →
  0 ≤ h * 10 + m `div` 6 ≤ 239
  ∧ (∀ k, 0 ≤ k ≤ 239 →
       is_Some (signal_awake_dict !! k)
       ∧ is_Some (signal_onset_dict !! k)
       ∧ is_Some (signal_poly_dict !! k))
  ∧ (∀ (env : row_env) (us : Z),
       assoc "timestamp" env = Some (VDatetime us) →
       ∃ b,
         eval hour_plus_minute env = Ok (VInt b) ∧ 0 ≤ b ≤ 239
         ∧ is_Some (signal_awake_dict !! b)
         ∧ is_Some (signal_onset_dict !! b)
         ∧ is_Some (signal_poly_dict !! b)).
Proof.
  intros Hh Hm. split; [exact (time_bucket_range h m Hh Hm) |].
  split; [exact signal_tables_total |].
  intros env us Hts.
  pose proof (hour_plus_minute_eval env us Hts) as Hb.
  set (b := time_bucket _ _) in Hb.
  assert (0 ≤ b ≤ 239) as Hrange.
  { apply time_bucket_range.
    - pose proof (Z.mod_pos_bound (us `div` 3600000000) 24). lia.
    - pose proof (Z.mod_pos_bound (us `div` 60000000) 60). lia. }
  destruct (signal_tables_total b Hrange) as (Ha & Ho & Hp).
  by exists b.
Qed.

(** ** The circular encoding *)

Lemma to_coord_eval (x : Expr) (env : row_env) (v max_ : Z) (name : string) :
  eval x env = Ok (VInt v) → max_ ≠ 0 →
  (fun e => (out_name e, eval e env)) <$> to_coord x max_ name
  = [ (name +:+ "_sin", Ok (VF64 (sin (2 * PI * IZR (v `mod` max_) / IZR max_))));
      (name +:+ "_cos", Ok (VF64 (cos (2 * PI * IZR (v `mod` max_) / IZR max_)))) ].
Proof.
  intros Hx Hne. unfold to_coord. simpl. rewrite Hx. simpl.
  rewrite decide_False by done. reflexivity.
Qed.

Lemma encode_eval (x period : Z) :
  period ≠ 0 →
  encode x period
  = [ Ok (VF64 (sin (2 * PI * IZR (x `mod` period) / IZR period)));
      Ok (VF64 (cos (2 * PI * IZR (x `mod` period) / IZR period))) ].
Proof.
  intros Hne. unfold encode.
  pose proof (to_coord_eval (col "x") [("x", VInt x)] x period "x"
                eq_refl Hne) as H.
  apply (f_equal (fmap snd)) in H.
  rewrite <- list_fmap_compose in H. exact H.
Qed.

Lemma to_coord_rad_eval (x : Expr) (env : row_env) (v max_ : Z) :
  eval x env = Ok (VInt v) → max_ ≠ 0 →
  eval (elementwise (mod_int max_) x) env = Ok (VInt (v `mod` max_))
  ∧ eval (to_coord_rad x max_) env
    = Ok (VF64 (2 * PI * IZR (v `mod` max_) / IZR max_)).
Proof.
  intros Hx Hne. unfold to_coord_rad. simpl. rewrite Hx. simpl.
  by rewrite decide_False by done.
Qed.

(** C4: on a row where the expression [x] has the integer value [v], and
    for a positive period, the sub-expression [x % period] of [to_coord]
    has a value [r] with [0 <= r < period] that differs from [v] by a
    multiple of the period, also for a negative [v]; the angle [rad] is
    [2*pi*r/period], in [0, 2*pi); and [to_coord] yields the two
    expressions [name_sin] and [name_cos] with the values [sin rad] and
    [cos rad]. *)
Theorem to_coord_sin_cos (x : Expr) (env : row_env) (v period : Z) (name : string) :
  eval x env = Ok (VInt v) → 0 < period →
  ∃ r : Z,
    eval (elementwise (mod_int period) x) env = Ok (VInt r)
    ∧ 0 ≤ r < period
    ∧ (∃ q : Z, v = q * period + r)
    ∧ eval (to_coord_rad x period) env = Ok (VF64 (2 * PI * IZR r / IZR period))
    ∧ (0 <= 2 * PI * IZR r / IZR period < 2 * PI)%R
    ∧ (fun e => (out_name e, eval e env)) <$> to_coord x period name
      = [ (name +:+ "_sin", Ok (VF64 (sin (2 * PI * IZR r / IZR period))));
          (name +:+ "_cos", Ok (VF64 (cos (2 * PI * IZR r / IZR period)))) ].
Proof.
  intros Hx Hp. assert (period ≠ 0) as Hne by lia.
  destruct (to_coord_rad_eval x env v period Hx Hne) as [Hmod Hrad].
  pose proof (Z.mod_pos_bound v period Hp) as Hr.
  exists (v `mod` period).
  split; [exact Hmod |]. split; [exact Hr |].
  split.
  { exists (v `div` period). rewrite Z.mul_comm. by apply Z.div_mod. }
  split; [exact Hrad |].
  split; [| by apply to_coord_eval].
  assert (0 < IZR period)%R as Hpr by (by apply IZR_lt).
  assert (0 <= IZR (v `mod` period) < IZR period)%R as [Hlo Hhi].
  { split; [apply IZR_le | apply IZR_lt]; lia. }
  pose proof PI_RGT_0 as Hpi.
  split.
  - apply Rmult_le_pos; [| left; by apply Rinv_0_lt_compat].
    apply Rmult_le_pos; lra.
  - apply Rmult_lt_reg_r with (IZR period); [done |].
    unfold Rdiv. rewrite Rmult_assoc, Rinv_l, Rmult_1_r by lra.
    apply Rmult_lt_compat_l; lra.
Qed.

Lemma to_coord_sin_cos_witness :
  ∃ r : Z,
    eval (elementwise (mod_int 24) (col "hour")) [("hour", VInt (-1))]
    = Ok (VInt r)
    ∧ 0 ≤ r < 24
    ∧ (fun e => (out_name e, eval e [("hour", VInt (-1))]))
        <$> to_coord (col "hour") 24 "hour"
      = [ ("hour_sin", Ok (VF64 (sin (2 * PI * IZR r / IZR 24))));
          ("hour_cos", Ok (VF64 (cos (2 * PI * IZR r / IZR 24)))) ].
Proof.
  destruct (to_coord_sin_cos (col "hour") [("hour", VInt (-1))] (-1) 24 "hour")
    as (r & Hmod & Hr & _ & _ & _ & Hpair).
  - reflexivity.
  - lia.
  - exists r. split; [exact Hmod |]. split; [exact Hr | exact Hpair].
Defined.

(** C10: with period 24 the encoder returns, for every integer [x], a
    pair [(s, c)] with [s^2 + c^2 = 1]; it gives the same pair at 0 and at
    24; hour 0 maps to [(0, 1)] and hour 12 to [(0, -1)]. *)
Theorem encode_24_unit_circle :
  (∀ x : Z, ∃ s c : R,
      encode x 24 = [Ok (VF64 s); Ok (VF64 c)] ∧ (s ^ 2 + c ^ 2 = 1)%R)
  ∧ encode 0 24 = encode 24 24
  ∧ encode 0 24 = [Ok (VF64 0); Ok (VF64 1)]
  ∧ encode 12 24 = [Ok (VF64 0); Ok (VF64 (-1))].
Proof.
  assert (24 ≠ 0) as Hne by lia.
  split; [| split; [| split]].
  - intros x. eexists _, _. split; [by apply encode_eval |].
    rewrite <- !Rsqr_pow2. apply sin2_cos2.
  - by rewrite !encode_eval.
  - rewrite encode_eval by done.
    replace (2 * PI * IZR (0 `mod` 24) / IZR 24)%R with 0%R
      by (change (0 `mod` 24) with 0; lra).
    by rewrite sin_0, cos_0.
  - rewrite encode_eval by done.
    replace (2 * PI * IZR (12 `mod` 24) / IZR 24)%R with PI
      by (change (12 `mod` 24) with 12; lra).
    by rewrite sin_PI, cos_PI.
Qed.

(** ** Normalisation *)





(** ** The exporter *)

Lemma mapM_res_Forall2 {A B} (f : A → res B) (l : list A) (P : A → B → Prop) :
  Forall (fun a => ∃ b, f a = Ok b ∧ P a b) l →
  ∃ bs, mapM f l = Ok bs ∧ Forall2 P l bs.
Proof.
  induction 1 as [|a l (b & Hb & HP) _ (bs & Hbs & HF)].
  - by exists [].
  - exists (b :: bs). split; [| by constructor].
    simpl. rewrite Hb. simpl. by rewrite Hbs.
Qed.

Lemma get_column_to_numpy (df : DataFrame) (name : string) :
  has_numeric_column df name →
  ∃ x, get_column df name ≫= to_numpy = Ok x
       ∧ is_column df name x ∧ length x = height df.
Proof.
  intros [Hin Hrows]. unfold get_column. rewrite decide_True by done.
  destruct (mapM_res_Forall2 (fun r => lookup_col name (env_of df r)) (rows df)
              (fun r v => assoc name (env_of df r) = Some v ∧ is_string v = false))
    as (x & Hx & HF).
  { eapply Forall_impl; [exact Hrows |].
    intros r (v & Hv & Hs). exists v. unfold lookup_col. by rewrite Hv. }
  exists x. rewrite Hx. simpl. unfold to_numpy.
  assert (existsb is_string x = false) as ->.
  { clear Hx Hrows. revert HF. generalize (rows df). intros l HF.
    induction HF as [|r v rs vs [_ Hs] _ IH]; [done |].
    simpl. by rewrite Hs, IH. }
  split; [done |]. split.
  - eapply Forall2_impl; [exact HF |]. by intros r v [? _].
  - symmetry. unfold height. by eapply Forall2_length.
Qed.

Lemma make_dirs_spec (rest : list string) (done : path) (t t' : gmap path node) :
  make_dirs done rest t = Ok t' →
  (rest ≠ [] → t' !! (done ++ rest) = Some Dir)
  ∧ (∀ p n, t !! p = Some n → t' !! p = Some n)
  ∧ (∀ p n, t' !! p = Some n →
       t !! p = Some n
       ∨ (n = Dir ∧ p `prefix_of` done ++ rest ∧ (length done < length p)%nat)).
Proof.
  revert done t. induction rest as [|name rest IH]; intros done t Hmk; simpl in Hmk.
  - injection Hmk as <-. split; [done |]. split; [done |]. auto.
  - change (join done name) with (done ++ [name]) in Hmk.
    assert (done ++ name :: rest = (done ++ [name]) ++ rest) as Happ
      by (by rewrite <- app_assoc).
    assert (length (done ++ [name]) = S (length done)) as Hlen
      by (rewrite length_app; simpl; lia).
    rewrite Happ.
    destruct (t !! (done ++ [name])) as [[| |]|] eqn:Hq.
    + apply IH in Hmk as (Hdir & Hmono & Hinv).
      split; [| split].
      * intros _. destruct rest as [|c rest'].
        -- rewrite app_nil_r. by apply Hmono.
        -- by apply Hdir.
      * done.
      * intros p n Hp. destruct (Hinv p n Hp) as [|(-> & Hpre & Hlt)]; [by left |].
        right. split; [done |]. split; [done | lia].
    + destruct rest; done.
    + destruct rest; done.
    + apply IH in Hmk as (Hdir & Hmono & Hinv).
      split; [| split].
      * intros _. destruct rest as [|c rest'].
        -- rewrite app_nil_r. apply Hmono. by rewrite lookup_insert_eq.
        -- by apply Hdir.
      * intros p n Hp. apply Hmono.
        rewrite lookup_insert_ne; [done |]. intros <-. congruence.
      * intros p n Hp. destruct (Hinv p n Hp) as [Hold|(-> & Hpre & Hlt)].
        -- destruct (decide (done ++ [name] = p)) as [<-|Hne].
           ++ rewrite lookup_insert_eq in Hold. injection Hold as <-.
              right. split; [done |]. split; [| lia].
              by apply prefix_app_r.
           ++ rewrite lookup_insert_ne in Hold by done. by left.
        -- right. split; [done |]. split; [done | lia].
Qed.

Lemma parent_join (dir : path) (name : string) : parent (join dir name) = dir.
Proof. apply removelast_last. Qed.

Lemma join_neq (dir : path) (name : string) : join dir name ≠ dir.
Proof.
  intros Heq. apply (f_equal length) in Heq. unfold join in Heq.
  rewrite length_app in Heq. simpl in Heq. lia.
Qed.

Lemma is_dir_join (t : gmap path node) (dir : path) (name : string) :
  is_dir t (join dir name) = false → t !! join dir name ≠ Some Dir.
Proof.
  intros H Hd. unfold is_dir in H.
  destruct (join dir name) as [|c q] eqn:Hq; [done |].
  by rewrite Hd in H.
Qed.

Lemma is_dir_lookup (t : gmap path node) (p : path) :
  t !! p = Some Dir → is_dir t p = true.
Proof. intros H. unfold is_dir. destruct p; [done |]. by rewrite H. Qed.

Lemma is_dir_insert_file (t : gmap path node) (p q : path) (x : list value) :
  p ≠ q → is_dir (<[q := Npy x]> t) p = is_dir t p.
Proof.
  intros Hne. unfold is_dir. destruct p as [|c p']; [done |].
  by rewrite lookup_insert_ne.
Qed.

Lemma np_save_ok (p : path) (x : list value) (w : world) :
  is_dir (fs w) (parent p) = true → fs w !! p ≠ Some Dir →
  np_save p x w
  = (Ok tt, {| fs := <[p := Npy x]> (fs w);
               io_log := io_log w ++ [IOSave p];
               console := console w |}).
Proof.
  intros Hparent Hfile. unfold np_save, bind, log_io, get_fs. simpl.
  rewrite Hparent. destruct (fs w !! p) as [[| |]|]; done.
Qed.

Lemma mkdir_ok (p : path) (w : world) (t' : gmap path node) :
  make_dirs [] p (fs w) = Ok t' →
  mkdir p w
  = (Ok tt, {| fs := t'; io_log := io_log w ++ [IOMkdir p];
               console := console w |}).
Proof.
  intros Hmk. unfold mkdir, bind, log_io, get_fs, lift. simpl. by rewrite Hmk.
Qed.

(** The loop of [save_each_series] over the column names. *)
Lemma save_loop (df : DataFrame) (dir : path) (cols : list string) (w : world) :
  is_dir (fs w) dir = true →
  Forall (has_numeric_column df) cols →
  Forall (fun f => is_dir (fs w) (feature_file dir f) = false) cols →
  NoDup (feature_file dir <$> cols) →
  ∃ w',
    for_each cols (fun col_name =>
      x <- lift (get_column df col_name ≫= to_numpy) ;;
      np_save (join dir (col_name +:+ ".npy")) x) w = (Ok tt, w')
    ∧ io_log w' = io_log w ++ (IOSave ∘ feature_file dir <$> cols)
    ∧ console w' = console w
    ∧ (∀ p, p ∉ feature_file dir <$> cols → fs w' !! p = fs w !! p)
    ∧ (∀ f, f ∈ cols →
         ∃ x, fs w' !! feature_file dir f = Some (Npy x)
              ∧ is_column df f x ∧ length x = height df).
Proof.
  revert w. induction cols as [|f cols IH]; intros w Hdir Hnum Hfree Hnd.
  - exists w. simpl. rewrite app_nil_r. repeat split; try done.
    intros f Hf. by apply elem_of_nil in Hf.
  - apply Forall_cons in Hnum as [Hf Hnum].
    apply Forall_cons in Hfree as [Hff Hfree].
    rewrite fmap_cons in Hnd. apply NoDup_cons in Hnd as [Hnotin Hnd].
    destruct (get_column_to_numpy df f Hf) as (x & Hx & Hcol & Hlen).
    set (w1 := {| fs := <[feature_file dir f := Npy x]> (fs w);
                  io_log := io_log w ++ [IOSave (feature_file dir f)];
                  console := console w |}).
    destruct (IH w1) as (w' & Hrun & Hlog & Hcon & Hother & Hfiles).
    { simpl. rewrite is_dir_insert_file; [done |].
      intros Heq. symmetry in Heq. by apply join_neq in Heq. }
    { done. }
    { apply Forall_forall. intros g Hg. simpl.
      rewrite is_dir_insert_file.
      - eapply Forall_forall in Hfree; [exact Hfree | exact Hg].
      - intros Heq. apply Hnotin. rewrite <- Heq.
        by apply list_elem_of_fmap_2. }
    { done. }
    exists w'. split.
    { simpl. unfold bind at 1. unfold bind at 1. unfold lift at 1.
      rewrite Hx.
      change (join dir (f +:+ ".npy")) with (feature_file dir f).
      rewrite np_save_ok.
      - exact Hrun.
      - unfold feature_file. by rewrite parent_join.
      - by apply is_dir_join. }
    split.
    { rewrite Hlog. simpl. by rewrite <- app_assoc. }
    split; [by rewrite Hcon |].
    split.
    { intros p Hp. rewrite fmap_cons in Hp.
      apply not_elem_of_cons in Hp as [Hne Hp].
      rewrite Hother by done. simpl. by rewrite lookup_insert_ne. }
    intros g [->|Hg]%elem_of_cons.
    + exists x. split; [| done].
      rewrite Hother by done. simpl. by rewrite lookup_insert_eq.
    + by apply Hfiles.
Qed.





Lemma time_bucket_tables_total_witness :
  0 ≤ 23 * 10 + 59 `div` 6 ≤ 239
  ∧ is_Some (signal_awake_dict !! 239)
  ∧ is_Some (signal_onset_dict !! 0)
  ∧ is_Some (signal_poly_dict !! 120).
Proof.
  destruct (time_bucket_tables_total 23 59) as (Hrange & Htotal & _); [lia | lia |].
  split; [exact Hrange |].
  split; [apply (Htotal 239); lia |].
  split; [apply (Htotal 0); lia | apply (Htotal 120); lia].
Defined.

(** ** The driver *)

Lemma lookup_remove_tree (d p : path) (t : gmap path node) :
  remove_tree d t !! p = if decide (d `prefix_of` p) then None else t !! p.
Proof.
  unfold remove_tree. case_decide as Hpre.
  - apply map_lookup_filter_None. right. intros n _ Hnot. by apply Hnot.
  - destruct (t !! p) as [n|] eqn:Hp.
    + apply map_lookup_filter_Some. by split.
    + apply map_lookup_filter_None. by left.
Qed.

Lemma remove_processed_dir_run (cfg : PrepareDataConfig) (w : world) :
  fs w !! phase_dir cfg = None ∨ fs w !! phase_dir cfg = Some Dir →
  remove_processed_dir cfg (phase_dir cfg) w = (Ok tt, after_removal cfg w).
Proof.
  intros Hd. unfold remove_processed_dir, after_removal, path_exists, rmtree.
  unfold bind, log_io, get_fs, put_fs, print, ret. simpl.
  destruct Hd as [Hd|Hd]; rewrite Hd.
  - rewrite bool_decide_eq_false_2; [done |]. by intros [n Hn].
  - rewrite bool_decide_eq_true_2 by eauto. cbn. rewrite Hd. cbn.
    by rewrite <- app_assoc.
Qed.

(** Whatever there was at or below the output root of the phase is gone
    after lines 142-145, and the root itself is not there any more. *)
Lemma after_removal_below (cfg : PrepareDataConfig) (w : world) (p : path) :
  closed_fs (fs w) → phase_dir cfg `prefix_of` p →
  fs (after_removal cfg w) !! p = None.
Proof.
  intros Hclosed Hpre. unfold after_removal. case_bool_decide as Hex; simpl.
  - rewrite lookup_remove_tree. by rewrite decide_True.
  - destruct (fs w !! p) as [n|] eqn:Hp; [| done].
    exfalso. apply Hex. apply (Hclosed p); [eauto | done |].
    unfold phase_dir, join. by destruct (processed_dir (dir cfg)).
Qed.

Lemma after_removal_elsewhere (cfg : PrepareDataConfig) (w : world) (p : path) :
  ¬ phase_dir cfg `prefix_of` p →
  fs (after_removal cfg w) !! p = fs w !! p.
Proof.
  intros Hpre. unfold after_removal. case_bool_decide; simpl; [| done].
  rewrite lookup_remove_tree. by rewrite decide_False.
Qed.

Lemma after_removal_io_log (cfg : PrepareDataConfig) (w : world) :
  io_log (after_removal cfg w)
  = io_log w ++ IOExists (phase_dir cfg)
      :: (if bool_decide (is_Some (fs w !! phase_dir cfg))
          then [IORmtree (phase_dir cfg)] else []).
Proof. unfold after_removal. by case_bool_decide. Qed.

Lemma deg_to_rad_unbound : "deg_to_rad" ∉ module_globals.
Proof. apply (bool_decide_unpack _). vm_compute. exact I. Qed.

Lemma preprocess_raises (strptime : string → string → option Z)
    (series_lf : DataFrame) (w : world) :
  preprocess strptime series_lf w = (Raise (NameError "deg_to_rad"), w).
Proof.
  unfold preprocess, bind, load_global.
  rewrite decide_False by apply deg_to_rad_unbound. reflexivity.
Qed.

Lemma valid_phase_cases (phase : string) :
  phase ∈ ["train"; "test"; "dev"] ↔ phase ∈ ["train"; "test"] ∨ phase = "dev".
Proof. rewrite !elem_of_cons, !elem_of_nil. tauto. Qed.

Lemma scan_series_valid (cfg : PrepareDataConfig) (w : world) (table : DataFrame) :
  phase cfg ∈ ["train"; "test"; "dev"] →
  fs w !! input_path cfg = Some (Parquet table) →
  scan_series cfg w
  = (Ok table, {| fs := fs w; io_log := io_log w ++ [IOScan (input_path cfg)];
                  console := console w |}).
Proof.
  intros Hphase Hin. unfold scan_series, input_path in *.
  destruct (decide (phase cfg ∈ ["train"; "test"])) as [Htt|Htt].
  - unfold scan_parquet, bind, log_io, get_fs, ret. simpl. by rewrite Hin.
  - rewrite decide_True.
    + unfold scan_parquet, bind, log_io, get_fs, ret. simpl. by rewrite Hin.
    + apply valid_phase_cases in Hphase as [?|?]; done.
Qed.

Lemma scan_series_invalid (cfg : PrepareDataConfig) (w : world) :
  phase cfg ∉ ["train"; "test"; "dev"] →
  scan_series cfg w = (Raise (ValueError ("Invalid phase: " +:+ phase cfg)), w).
Proof.
  intros Hphase. unfold scan_series.
  rewrite valid_phase_cases in Hphase.
  rewrite decide_False by tauto. rewrite decide_False by tauto.
  reflexivity.
Qed.

Lemma main_run (strptime : string → string → option Z)
    (cfg : PrepareDataConfig) (w : world) :
  fs w !! phase_dir cfg = None ∨ fs w !! phase_dir cfg = Some Dir →
  main strptime cfg w
  = match scan_series cfg (after_removal cfg w) with
    | (Ok series_lf, w') => (Raise (NameError "deg_to_rad"), w')
    | (Raise e, w') => (Raise e, w')
    end.
Proof.
  intros Hd. unfold main. unfold bind at 1.
  change (join (processed_dir (dir cfg)) (phase cfg)) with (phase_dir cfg).
  rewrite remove_processed_dir_run by done.
  unfold bind at 1. unfold trace at 1. unfold bind at 1.
  unfold load_series. unfold bind at 1.
  destruct (scan_series cfg (after_removal cfg w)) as [[series_lf|e] w'];
    [| done].
  unfold bind at 1. by rewrite preprocess_raises.
Qed.

Lemma make_dirs_app (r1 r2 : list string) (done : path) (t t' : gmap path node) :
  make_dirs done (r1 ++ r2) t = Ok t' →
  ∃ t1, make_dirs done r1 t = Ok t1 ∧ make_dirs (done ++ r1) r2 t1 = Ok t'.
Proof.
  revert done t. induction r1 as [|name r1 IH]; intros done t Hmk.
  - exists t. by rewrite app_nil_r.
  - simpl in *. change (join done name) with (done ++ [name]) in *.
    replace (done ++ name :: r1) with ((done ++ [name]) ++ r1)
      by (by rewrite <- app_assoc).
    destruct (t !! (done ++ [name])) as [[| |]|] eqn:Hq.
    + by apply IH.
    + by destruct (r1 ++ r2).
    + by destruct (r1 ++ r2).
    + by apply IH.
Qed.

(** A successful export leaves the directory above the series directory
    in place: [mkdir] makes it when it is missing. *)
Lemma save_each_series_makes_parent (df : DataFrame) (columns : list string)
    (dir : path) (series_id : string) (w w' : world) :
  dir ≠ [] →
  save_each_series df columns (join dir series_id) w = (Ok tt, w') →
  fs w' !! dir = Some Dir.
Proof.
  intros Hne. unfold save_each_series. unfold bind at 1.
  unfold mkdir. unfold bind at 1. unfold bind at 1. unfold bind at 1.
  unfold log_io, get_fs, lift. simpl.
  destruct (make_dirs [] (join dir series_id) (fs w)) as [t'|e] eqn:Hmk; [| done].
  unfold put_fs. simpl.
  apply make_dirs_app in Hmk as (t1 & H1 & H2).
  apply make_dirs_spec in H1 as (Hdir & _ & _). specialize (Hdir Hne).
  apply make_dirs_spec in H2 as (_ & Hmono & _).
  apply Hmono in Hdir. clear Hmono t1.
  set (w1 := {| fs := t'; io_log := io_log w ++ [IOMkdir (join dir series_id)];
                console := console w |}).
  assert (fs w1 !! dir = Some Dir) as Hw1 by done.
  clearbody w1. clear Hdir. revert w1 Hw1.
  induction columns as [|c columns IH]; intros w1 Hw1 Hrun; simpl in Hrun.
  - by injection Hrun as <-.
  - unfold bind at 1 in Hrun. unfold bind at 1 in Hrun.
    destruct (get_column df c ≫= to_numpy) as [x|e]; [| done].
    unfold np_save in Hrun. unfold bind at 1 in Hrun. unfold bind at 1 in Hrun.
    unfold log_io, get_fs in Hrun. simpl in Hrun.
    destruct (is_dir (fs w1) (parent (join (join dir series_id) (c +:+ ".npy"))));
      [| done].
    destruct (fs w1 !! join (join dir series_id) (c +:+ ".npy")) as [[| |]|] eqn:Hp;
      try done.
    all: eapply IH; [| exact Hrun]; simpl.
    all: rewrite lookup_insert_ne; [done | congruence].
Qed.

(** C1: for a valid phase whose input table is there, whatever the
    table, [main] ends with the exception [NameError] for [deg_to_rad],
    raised in the preprocessing step.  By then an existing output
    directory of the phase has been deleted and the input has been
    scanned; nothing else has happened: no directory is made and no array
    is saved, and no array file is there that was not there before. *)
Theorem main_raises_NameError (strptime : string → string → option Z)
    (cfg : PrepareDataConfig) (w : world) (table : DataFrame) :
  phase cfg ∈ ["train"; "test"; "dev"] →
  fs w !! phase_dir cfg = None ∨ fs w !! phase_dir cfg = Some Dir →
  fs w !! input_path cfg = Some (Parquet table) →
  ¬ phase_dir cfg `prefix_of` input_path cfg →
  ∃ w',
    main strptime cfg w = (Raise (NameError "deg_to_rad"), w')
    ∧ io_log w'
      = io_log w ++ IOExists (phase_dir cfg)
          :: (if bool_decide (is_Some (fs w !! phase_dir cfg))
              then [IORmtree (phase_dir cfg)] else [])
          ++ [IOScan (input_path cfg)]
    ∧ fs w'
      = (if bool_decide (is_Some (fs w !! phase_dir cfg))
         then remove_tree (phase_dir cfg) (fs w) else fs w)
    ∧ (∀ p x, fs w' !! p = Some (Npy x) → fs w !! p = Some (Npy x))
    ∧ (fs w !! phase_dir cfg = Some Dir → fs w' !! phase_dir cfg = None).
Proof.
  intros Hphase Hd Hin Hpre.
  rewrite main_run by done.
  erewrite scan_series_valid; [| done |].
  2: { rewrite after_removal_elsewhere by done. exact Hin. }
  eexists. split; [reflexivity |]. simpl.
  split; [| split; [| split]].
  - rewrite after_removal_io_log. rewrite <- app_assoc. reflexivity.
  - unfold after_removal. by case_bool_decide.
  - intros p x. unfold after_removal. case_bool_decide; simpl; [| done].
    rewrite lookup_remove_tree. by case_decide.
  - intros Hdir. unfold after_removal.
    rewrite bool_decide_eq_true_2 by eauto. simpl.
    rewrite lookup_remove_tree. by rewrite decide_True.
Qed.

Lemma main_raises_NameError_witness :
  ∃ w',
    main sample_strptime (sample_cfg "train") (sample_world "train")
    = (Raise (NameError "deg_to_rad"), w')
    ∧ io_log w'
      = [ IOExists ["processed"; "train"]; IORmtree ["processed"; "train"];
          IOScan ["data"; "train_series.parquet"] ]
    ∧ fs w' !! ["processed"; "train"] = None.
Proof.
  destruct (main_raises_NameError sample_strptime (sample_cfg "train")
              (sample_world "train") sample_table)
    as (w' & Hrun & Hlog & _ & _ & Hgone).
  - apply (bool_decide_unpack _). vm_compute. exact I.
  - right. vm_compute. reflexivity.
  - vm_compute. reflexivity.
  - apply (bool_decide_unpack _). vm_compute. exact I.
  - exists w'. split; [exact Hrun |]. split.
    + rewrite Hlog. vm_compute. reflexivity.
    + apply Hgone. vm_compute. reflexivity.
Defined.

(** C8, as the code has it: for a phase other than train, test and dev
    that is a plain file name, and an output path of the phase that is
    absent or a directory, [main] ends with the configuration error
    [ValueError] before any input file is opened and before anything is
    made or saved; by then it has looked for the output directory of the
    phase and, if it was there, deleted it with all that is below it. *)
Theorem main_invalid_phase (strptime : string → string → option Z)
    (cfg : PrepareDataConfig) (w : world) :
  phase cfg ∉ ["train"; "test"; "dev"] →
  plain_name (phase cfg) = true →
  fs w !! phase_dir cfg = None ∨ fs w !! phase_dir cfg = Some Dir →
  ∃ w',
    main strptime cfg w
    = (Raise (ValueError ("Invalid phase: " +:+ phase cfg)), w')
    ∧ io_log w'
      = io_log w ++ IOExists (phase_dir cfg)
          :: (if bool_decide (is_Some (fs w !! phase_dir cfg))
              then [IORmtree (phase_dir cfg)] else [])
    ∧ fs w'
      = (if bool_decide (is_Some (fs w !! phase_dir cfg))
         then remove_tree (phase_dir cfg) (fs w) else fs w).
Proof.
  intros Hphase _ Hd.
  rewrite main_run by done.
  rewrite scan_series_invalid by done.
  eexists. split; [reflexivity |]. split.
  - apply after_removal_io_log.
  - unfold after_removal. by case_bool_decide.
Qed.

Lemma main_invalid_phase_witness :
  ∃ w',
    main sample_strptime (sample_cfg "bogus") (sample_world "bogus")
    = (Raise (ValueError "Invalid phase: bogus"), w')
    ∧ io_log w'
      = [ IOExists ["processed"; "bogus"]; IORmtree ["processed"; "bogus"] ].
Proof.
  destruct (main_invalid_phase sample_strptime (sample_cfg "bogus")
              (sample_world "bogus"))
    as (w' & Hrun & Hlog & _).
  - apply (bool_decide_unpack _). vm_compute. exact I.
  - reflexivity.
  - right. vm_compute. reflexivity.
  - exists w'. split; [exact Hrun |].
    rewrite Hlog. vm_compute. reflexivity.
Defined.

(** C8, as stated, fails: with the phase "bogus" and an output directory
    of that name left by an earlier run, the run has tested for the
    directory and deleted it, array file included, when it aborts. *)
Lemma invalid_phase_aborts_after_io :
  (main sample_strptime (sample_cfg "bogus") (sample_world "bogus")).1
  = Raise (ValueError "Invalid phase: bogus")
  ∧ io_log (sample_world "bogus") = []
  ∧ io_log (main sample_strptime (sample_cfg "bogus") (sample_world "bogus")).2
    = [ IOExists ["processed"; "bogus"]; IORmtree ["processed"; "bogus"] ]
  ∧ fs (sample_world "bogus") !! ["processed"; "bogus"; "old"; "anglez.npy"]
    = Some (Npy [VF32 (S754_zero false)])
  ∧ fs (main sample_strptime (sample_cfg "bogus") (sample_world "bogus")).2
      !! ["processed"; "bogus"; "old"; "anglez.npy"]
    = None.
Proof. vm_compute. repeat split; reflexivity. Qed.

(** C9, as the code has it: when the phase is a plain file name, every
    entry of the file system lies in a directory that exists, and the
    output path of the phase is absent or a directory, the run starts,
    before any input is read, by deleting the output directory of the
    phase if it is there, with all that is below it, so that nothing of an
    earlier run is left under the output root, and nothing outside it is
    touched; the rest of the run goes on from that state.  The directory
    is not made again at that point: it comes back only as the parent of
    a series directory, when the exporter has run for a series whose
    identifier is a plain file name. *)
Theorem phase_dir_removed_at_start (strptime : string → string → option Z)
    (cfg : PrepareDataConfig) (w : world) :
  plain_name (phase cfg) = true →
  closed_fs (fs w) →
  fs w !! phase_dir cfg = None ∨ fs w !! phase_dir cfg = Some Dir →
  ∃ w1,
    remove_processed_dir cfg (phase_dir cfg) w = (Ok tt, w1)
    ∧ main strptime cfg w
      = (loaded <- trace "Load series" (load_series strptime cfg) ;;
         trace "Save features"
           (save_features (phase_dir cfg) loaded.1 loaded.2)) w1
    ∧ io_log w1
      = io_log w ++ IOExists (phase_dir cfg)
          :: (if bool_decide (is_Some (fs w !! phase_dir cfg))
              then [IORmtree (phase_dir cfg)] else [])
    ∧ (∀ p, phase_dir cfg `prefix_of` p → fs w1 !! p = None)
    ∧ (∀ p, ¬ phase_dir cfg `prefix_of` p → fs w1 !! p = fs w !! p)
    ∧ (∀ df series_id w2 w3,
         plain_name series_id = true →
         save_each_series df FEATURE_NAMES (join (phase_dir cfg) series_id) w2
         = (Ok tt, w3) →
         fs w3 !! phase_dir cfg = Some Dir).
Proof.
  intros _ Hclosed Hd. exists (after_removal cfg w).
  split; [by apply remove_processed_dir_run |].
  split.
  { unfold main. unfold bind at 1.
    change (join (processed_dir (dir cfg)) (phase cfg)) with (phase_dir cfg).
    by rewrite remove_processed_dir_run. }
  split; [apply after_removal_io_log |].
  split; [intros p; by apply after_removal_below |].
  split; [intros p; by apply after_removal_elsewhere |].
  intros df series_id w2 w3 _. apply save_each_series_makes_parent.
  unfold phase_dir, join. by destruct (processed_dir (dir cfg)).
Qed.

Lemma sample_fs_closed : closed_fs (sample_fs "train").
Proof.
  intros p q [n Hn] Hpre Hq.
  apply (elem_of_list_to_map_2 (M := gmap path)) in Hn.
  repeat (apply elem_of_cons in Hn as [Hn|Hn];
          [ injection Hn as -> ->;
            destruct Hpre as [k Hk];
            repeat (destruct q as [|? q];
                    [ first [done | vm_compute; eauto]
                    | injection Hk as <- Hk ]);
            destruct q; [vm_compute; eauto | done]
          | ]).
  by apply elem_of_nil in Hn.
Qed.

Lemma phase_dir_removed_at_start_witness :
  ∃ w1,
    remove_processed_dir (sample_cfg "train") ["processed"; "train"]
      (sample_world "train") = (Ok tt, w1)
    ∧ io_log w1
      = [ IOExists ["processed"; "train"]; IORmtree ["processed"; "train"] ]
    ∧ fs w1 !! ["processed"; "train"; "old"; "anglez.npy"] = None.
Proof.
  destruct (phase_dir_removed_at_start sample_strptime (sample_cfg "train")
              (sample_world "train"))
    as (w1 & Hrun & _ & Hlog & Hgone & _).
  - reflexivity.
  - exact sample_fs_closed.
  - right. vm_compute. reflexivity.
  - exists w1. split; [exact Hrun |]. split.
    + rewrite Hlog. vm_compute. reflexivity.
    + apply Hgone. by exists ["old"; "anglez.npy"].
Defined.

(** C9, as stated, fails: the output directory of the phase, there from an
    earlier run, is deleted by the first lines of [main] and is not made
    again, neither at that point nor, here, in the rest of the run. *)
Lemma phase_dir_not_recreated :
  fs (sample_world "train") !! ["processed"; "train"] = Some Dir
  ∧ (remove_processed_dir (sample_cfg "train") ["processed"; "train"]
       (sample_world "train")).1 = Ok tt
  ∧ fs (remove_processed_dir (sample_cfg "train") ["processed"; "train"]
          (sample_world "train")).2 !! ["processed"; "train"] = None
  ∧ fs (main sample_strptime (sample_cfg "train") (sample_world "train")).2
      !! ["processed"; "train"] = None.
Proof. vm_compute. repeat split; reflexivity. Qed.

(** * Further properties of the code *)

(** ** The signal tables: domain and range *)

Lemma dict_comprehension_is_Some (f : Z → R) (keys : list Z) (k : Z) :
  is_Some (dict_comprehension f keys !! k) ↔ k ∈ keys.
Proof.
  split.
  - intros [x Hx]. destruct (decide (k ∈ keys)) as [|Hnot]; [done |].
    by rewrite dict_comprehension_lookup_None in Hx.
  - intros Hin. rewrite dict_comprehension_lookup by done. eauto.
Qed.

Lemma dict_comprehension_size (f : Z → R) (keys : list Z) :
  NoDup keys → size (dict_comprehension f keys) = length keys.
Proof.
  intros Hnd. rewrite <- size_dom, <- (size_list_to_set (C := gset Z)) by done.
  f_equal. apply set_eq. intros k.
  rewrite elem_of_dom, dict_comprehension_is_Some, elem_of_list_to_set. done.
Qed.

(** The keys of each of the three tables are exactly the 240 integers
    from 0 to 239: each table has an entry at [k] exactly when
    [0 <= k <= 239], and 240 entries in all. *)
Theorem signal_tables_domain (k : Z) :
  (is_Some (signal_awake_dict !! k) ↔ 0 ≤ k ≤ 239)
  ∧ (is_Some (signal_onset_dict !! k) ↔ 0 ≤ k ≤ 239)
  ∧ (is_Some (signal_poly_dict !! k) ↔ 0 ≤ k ≤ 239)
  ∧ size signal_awake_dict = 240%nat
  ∧ size signal_onset_dict = 240%nat
  ∧ size signal_poly_dict = 240%nat.
Proof.
  unfold signal_awake_dict, signal_onset_dict, signal_poly_dict.
  rewrite !dict_comprehension_is_Some, !new_time_units_spec.
  rewrite !dict_comprehension_size by apply NoDup_seqZ.
  unfold new_time_units. rewrite length_seqZ.
  do 5 (split; [done |]). done.
Qed.

Lemma two_lt_sqrt_2PI : (2 < sqrt (2 * PI))%R.
Proof.
  pose proof PI2_3_2 as Hpi.
  replace 2%R with (sqrt 4) at 1.
  - apply sqrt_lt_1_alt. lra.
  - replace 4%R with (2 * 2)%R by lra. apply sqrt_square. lra.
Qed.

(** The density of [scipy.stats.norm] is positive and at most
    [1 / (2 * scale)]. *)
Lemma norm_pdf_bounds (x loc scale : R) :
  (0 < scale)%R →
  (0 < norm_pdf x loc scale <= 1 / (2 * scale))%R.
Proof.
  intros Hs. unfold norm_pdf.
  pose proof two_lt_sqrt_2PI as Hq.
  set (y := ((x - loc) / scale)%R).
  pose proof (exp_pos (- y ^ 2 / 2)) as Hpos.
  assert (exp (- y ^ 2 / 2) <= 1)%R as Hle.
  { rewrite <- exp_0. destruct (Req_dec (- y ^ 2 / 2) 0) as [->|Hne]; [lra |].
    left. apply exp_increasing. pose proof (pow2_ge_0 y). lra. }
  assert (0 < sqrt (2 * PI) * scale)%R as Hden by (apply Rmult_lt_0_compat; lra).
  replace (exp (- y ^ 2 / 2) / sqrt (2 * PI) / scale)%R
    with (exp (- y ^ 2 / 2) / (sqrt (2 * PI) * scale))%R by (field; lra).
  split.
  - by apply Rdiv_lt_0_compat.
  - apply Rle_trans with (1 / (sqrt (2 * PI) * scale))%R.
    + apply Rmult_le_compat_r; [| exact Hle].
      left. by apply Rinv_0_lt_compat.
    + unfold Rdiv. rewrite !Rmult_1_l.
      apply Rinv_le_contravar; [lra |].
      apply Rmult_le_compat_r; lra.
Qed.

Lemma calc_mixture_gaussian_bounds (time w mu_1 sigma_1 mu_2 sigma_2 : R) :
  (0 < w < 1)%R → (0 < sigma_1)%R → (0 < sigma_2)%R →
  (0 < calc_mixture_gaussian time w mu_1 sigma_1 mu_2 sigma_2
   <= w / (2 * sigma_1) + (1 - w) / (2 * sigma_2))%R.
Proof.
  intros Hw H1 H2. unfold calc_mixture_gaussian.
  pose proof (norm_pdf_bounds time mu_1 sigma_1 H1) as [Hp1 Hu1].
  pose proof (norm_pdf_bounds time mu_2 sigma_2 H2) as [Hp2 Hu2].
  split.
  - apply Rplus_lt_0_compat; apply Rmult_lt_0_compat; lra.
  - apply Rplus_le_compat.
    + replace (w / (2 * sigma_1))%R with (w * (1 / (2 * sigma_1)))%R
        by (field; lra).
      apply Rmult_le_compat_l; lra.
    + replace ((1 - w) / (2 * sigma_2))%R with ((1 - w) * (1 / (2 * sigma_2)))%R
        by (field; lra).
      apply Rmult_le_compat_l; lra.
Qed.

(** Every value of the two Gaussian tables lies strictly between 0 and
    1/2. *)
Theorem signal_mixture_tables_range (b : Z) :
  0 ≤ b ≤ 239 →
  ∃ x y : R,
    signal_awake_dict !! b = Some x ∧ signal_onset_dict !! b = Some y
    ∧ (0 < x < 1 / 2)%R ∧ (0 < y < 1 / 2)%R.
Proof.
  intros Hb. apply new_time_units_spec in Hb.
  unfold signal_awake_dict, signal_onset_dict.
  rewrite !dict_comprehension_lookup by done.
  eexists _, _. split; [reflexivity |]. split; [reflexivity |].
  unfold calc_mixture_gaussian_kw. simpl.
  split.
  - destruct (calc_mixture_gaussian_bounds (IZR b / 10) 0.47799486 10.89539674
                0.87151052 11.82689931 2.06792452) as [Hpos Hup]; lra.
  - destruct (calc_mixture_gaussian_bounds (IZR b / 10) 0.97292814 2.12861738
                1.699476 22.7643724 0.42483832) as [Hpos Hup]; lra.
Qed.

Lemma signal_mixture_tables_range_witness :
  ∃ x y : R,
    signal_awake_dict !! 0 = Some x ∧ signal_onset_dict !! 0 = Some y
    ∧ (0 < x < 1 / 2)%R ∧ (0 < y < 1 / 2)%R.
Proof. apply (signal_mixture_tables_range 0). lia. Defined.

(** ** Time buckets *)

Lemma time_bucket_div_mod (h m : Z) :
  0 ≤ m ≤ 59 →
  time_bucket h m `div` 10 = h ∧ time_bucket h m `mod` 10 = m `div` 6.
Proof.
  intros Hm. unfold time_bucket.
  assert (0 ≤ m `div` 6 < 10).
  { split; [apply Z.div_pos; lia | apply Z.div_lt_upper_bound; lia]. }
  rewrite Z.add_comm.
  rewrite Z.div_add, Z.mod_add by lia.
  rewrite Z.div_small, Z.mod_small by lia. lia.
Qed.

(** The key that [add_feature] computes from an instant determines the
    hour of the day and the tenth of the hour: its quotient by 10 is the
    hour and its remainder is [minute // 6]; so two instants have the same
    key exactly when they have the same hour and the same tenth. *)
Theorem hour_plus_minute_decomposition (env1 env2 : row_env) (us1 us2 : Z) :
  assoc "timestamp" env1 = Some (VDatetime us1) →
  assoc "timestamp" env2 = Some (VDatetime us2) →
  ∃ b1 b2 : Z,
    eval hour_plus_minute env1 = Ok (VInt b1)
    ∧ eval hour_plus_minute env2 = Ok (VInt b2)
    ∧ b1 `div` 10 = (us1 `div` 3600000000) `mod` 24
    ∧ b1 `mod` 10 = ((us1 `div` 60000000) `mod` 60) `div` 6
    ∧ (b1 = b2 ↔
       (us1 `div` 3600000000) `mod` 24 = (us2 `div` 3600000000) `mod` 24
       ∧ ((us1 `div` 60000000) `mod` 60) `div` 6
         = ((us2 `div` 60000000) `mod` 60) `div` 6).
Proof.
  intros H1 H2. eexists _, _.
  split; [by apply hour_plus_minute_eval |].
  split; [by apply hour_plus_minute_eval |].
  pose proof (Z.mod_pos_bound (us1 `div` 60000000) 60) as Hm1.
  pose proof (Z.mod_pos_bound (us2 `div` 60000000) 60) as Hm2.
  destruct (time_bucket_div_mod ((us1 `div` 3600000000) `mod` 24)
              ((us1 `div` 60000000) `mod` 60)) as [Hd1 Hr1]; [lia |].
  destruct (time_bucket_div_mod ((us2 `div` 3600000000) `mod` 24)
              ((us2 `div` 60000000) `mod` 60)) as [Hd2 Hr2]; [lia |].
  split; [done |]. split; [done |]. split.
  - intros Heq. rewrite Heq in Hd1, Hr1. split; congruence.
  - intros [Hh Hs]. unfold time_bucket. by rewrite Hh, Hs.
Qed.

Lemma hour_plus_minute_decomposition_witness :
  ∃ b1 b2 : Z,
    eval hour_plus_minute [("timestamp", VDatetime 1577880420000000)]
    = Ok (VInt b1)
    ∧ eval hour_plus_minute [("timestamp", VDatetime 1577880599000000)]
      = Ok (VInt b2)
    ∧ b1 `div` 10 = 12 ∧ b1 `mod` 10 = 1 ∧ b1 = b2.
Proof.
  destruct (hour_plus_minute_decomposition
              [("timestamp", VDatetime 1577880420000000)]
              [("timestamp", VDatetime 1577880599000000)]
              1577880420000000 1577880599000000)
    as (b1 & b2 & Hb1 & Hb2 & Hd & Hr & Heq); [reflexivity | reflexivity |].
  exists b1, b2. split; [exact Hb1 |]. split; [exact Hb2 |].
  split; [exact Hd |]. split; [exact Hr |].
  apply Heq. split; reflexivity.
Defined.

(** ** The circular encoding for any period *)

(** The encoding is periodic, for every positive period: an integer and
    the integer a whole number of periods away get the same pair of
    values, and so do an integer and its remainder in [0, period); hence
    two integers that are congruent modulo the period get the same
    pair. *)
Theorem encode_periodic (x y k period : Z) :
  0 < period →
  encode (x + k * period) period = encode x period
  ∧ encode x period = encode (x `mod` period) period
  ∧ (x `mod` period = y `mod` period → encode x period = encode y period).
Proof.
  intros Hp. assert (period ≠ 0) as Hne by lia.
  rewrite !encode_eval by done.
  rewrite Z.mod_add by done. rewrite Z.mod_mod by done.
  split; [done |]. split; [done |]. by intros ->.
Qed.

Lemma encode_periodic_witness :
  encode (-1 + 2 * 24) 24 = encode (-1) 24
  ∧ encode (-1) 24 = encode 23 24
  ∧ encode (-1) 24 = encode 47 24.
Proof.
  destruct (encode_periodic (-1) 47 2 24) as (H1 & H2 & H3); [lia |].
  split; [exact H1 |]. split; [exact H2 |]. apply H3. reflexivity.
Defined.

(** ** Frames: the columns that an expression reads *)

Lemma mapM_res_Ok {A B} (f : A → res B) (l : list A) (k : list B) :
  mapM f l = Ok k ↔ Forall2 (fun a b => f a = Ok b) l k.
Proof.
  revert k. induction l as [|a l IH]; intros k; simpl.
  - split.
    + intros H. injection H as <-. constructor.
    + intros H. by apply Forall2_nil_inv_l in H as ->.
  - split.
    + destruct (f a) as [b|e] eqn:Hb; simpl; [| done].
      destruct (mapM f l) as [k'|e] eqn:Hk'; simpl; [| done].
      intros H. injection H as <-. constructor; [done |]. by apply IH.
    + intros H. apply Forall2_cons_inv_l in H as (b & k' & Hb & Hk' & ->).
      rewrite Hb. simpl. apply IH in Hk'. by rewrite Hk'.
Qed.

Lemma mapM_res_total {A B} (f : A → res B) (l : list A) :
  Forall (fun a => ∃ b, f a = Ok b) l → ∃ k, mapM f l = Ok k.
Proof.
  induction 1 as [|a l [b Hb] _ [k Hk]]; simpl.
  - by exists [].
  - rewrite Hb, Hk. simpl. eauto.
Qed.

Lemma missing_column_None (df : DataFrame) (names : list string) :
  Forall (fun n => n ∈ schema df) names → missing_column df names = None.
Proof.
  intros Hnames. unfold missing_column.
  assert (list_find (fun n => n ∉ schema df) names = None) as ->; [| done].
  apply list_find_None. eapply Forall_impl; [exact Hnames |].
  intros n Hn Hnot. by apply Hnot.
Qed.

Lemma missing_column_first (df : DataFrame) (name : string) (names : list string) :
  name ∉ schema df → missing_column df (name :: names) = Some name.
Proof.
  intros Hnot. unfold missing_column. simpl. by rewrite decide_True.
Qed.

(** [with_columns] returns a frame when the columns that the expressions
    read are in the schema and every expression has a value on every
    row. *)
Lemma with_columns_total (df : DataFrame) (exprs : list Expr) :
  Forall (fun n => n ∈ schema df) (concat (roots <$> exprs)) →
  Forall (fun r => ∃ env', with_columns_row exprs (env_of df r) = Ok env')
    (rows df) →
  ∃ df', with_columns df exprs = Ok df'.
Proof.
  intros Hroots Hrows. unfold with_columns.
  rewrite missing_column_None by done.
  destruct (mapM_res_total _ _ Hrows) as [envs Henvs].
  change (mapM (fun r => with_columns_row exprs (env_of df r)) (rows df))
    with (mapM (B := row_env)
            (fun r => with_columns_row exprs (env_of df r)) (rows df)).
  unfold row_env in *. rewrite Henvs. simpl. eauto.
Qed.

(** ** Feature assembly *)

Lemma hour_of_range (us : Z) : 0 ≤ hour_of us < 24.
Proof. unfold hour_of. apply Z.mod_pos_bound. lia. Qed.

Lemma to_coord_hour_row (env : row_env) (us : Z) :
  assoc "timestamp" env = Some (VDatetime us) →
  with_columns_row (to_coord (elementwise dt_hour (col "timestamp")) 24 "hour") env
  = Ok (set_col "hour_cos" (VF64 (cos (2 * PI * IZR (hour_of us) / IZR 24)))
          (set_col "hour_sin" (VF64 (sin (2 * PI * IZR (hour_of us) / IZR 24)))
             env)).
Proof.
  intros Hts. unfold with_columns_row, to_coord, to_coord_rad. simpl.
  rewrite Hts. simpl.
  fold (hour_of us).
  rewrite (Z.mod_small (hour_of us) 24) by apply hour_of_range.
  reflexivity.
Qed.

(** Line 106 is reached when the first [with_columns] returns, and ends
    the call. *)
Lemma add_feature_after_hour (series_df df1 : DataFrame) :
  with_columns series_df
    (to_coord (elementwise dt_hour (col "timestamp")) 24 "hour") = Ok df1 →
  ∃ e,
    Series_of_Expr (map_dict signal_awake_dict hour_plus_minute) = Raise e
    ∧ add_feature series_df = Raise e.
Proof.
  intros Hwc. unfold add_feature. rewrite Hwc.
  eexists. split; reflexivity.
Qed.

Lemma add_feature_Raise (series_df : DataFrame) :
  ∃ e, add_feature series_df = Raise e.
Proof.
  destruct (with_columns series_df
              (to_coord (elementwise dt_hour (col "timestamp")) 24 "hour"))
    as [df1|e] eqn:Hwc.
  - destruct (add_feature_after_hour _ _ Hwc) as (e & _ & ->). eauto.
  - unfold add_feature. rewrite Hwc. simpl. eauto.
Qed.

(** [add_feature] never returns a frame: whatever the frame, the call
    ends with an exception.  Either the first [with_columns] fails, or
    line 106 applies [pl.Series] to an expression, which the constructor
    refuses; the three tables are never looked up and the selection of
    line 111 is never reached. *)
Theorem add_feature_never_returns (series_df : DataFrame) :
  ∃ e, add_feature series_df = Raise e.
Proof. apply add_feature_Raise. Qed.

(** How [add_feature] ends.  On a frame without a timestamp column,
    whatever its rows, the first [with_columns] fails with
    [ColumnNotFoundError] for timestamp.  On a frame that has the column,
    at least one row, and an instant in the column on every row, the first
    [with_columns] returns a frame, and the call then ends at line 106
    with the exception that [pl.Series] raises on the expression
    [hour_plus_minute.map(signal_awake_dict)]. *)
Theorem add_feature_raises (series_df : DataFrame) :
  ("timestamp" ∉ schema series_df →
   add_feature series_df = Raise (ColumnNotFoundError "timestamp"))
  ∧ ("timestamp" ∈ schema series_df →
     rows series_df ≠ [] →
     Forall (fun r =>
         ∃ us, assoc "timestamp" (env_of series_df r) = Some (VDatetime us))
       (rows series_df) →
     ∃ df1 e,
       with_columns series_df
         (to_coord (elementwise dt_hour (col "timestamp")) 24 "hour") = Ok df1
       ∧ Series_of_Expr (map_dict signal_awake_dict hour_plus_minute) = Raise e
       ∧ add_feature series_df = Raise e).
Proof.
  split.
  - intros Hnot. unfold add_feature, with_columns.
    change (concat (roots <$> to_coord (elementwise dt_hour (col "timestamp"))
                                 24 "hour"))
      with ["timestamp"; "timestamp"].
    by rewrite missing_column_first.
  - intros Hin _ Hrows.
    destruct (with_columns_total series_df
                (to_coord (elementwise dt_hour (col "timestamp")) 24 "hour"))
      as [df1 Hwc].
    + by repeat constructor.
    + eapply Forall_impl; [exact Hrows |].
      intros r [us Hts]. eexists. by apply to_coord_hour_row.
    + destruct (add_feature_after_hour _ _ Hwc) as (e & He & Hrun). eauto.
Qed.

Lemma add_feature_raises_witness :
  add_feature {| schema := ["series_id"; "anglez"; "enmo"]; rows := [] |}
  = Raise (ColumnNotFoundError "timestamp")
  ∧ ∃ df1 e,
      with_columns sample_series
        (to_coord (elementwise dt_hour (col "timestamp")) 24 "hour") = Ok df1
      ∧ Series_of_Expr (map_dict signal_awake_dict hour_plus_minute) = Raise e
      ∧ add_feature sample_series = Raise e.
Proof.
  split.
  - apply (add_feature_raises
             {| schema := ["series_id"; "anglez"; "enmo"]; rows := [] |}).
    apply (bool_decide_unpack _). vm_compute. exact I.
  - apply (add_feature_raises sample_series).
    + apply (bool_decide_unpack _). vm_compute. exact I.
    + done.
    + repeat constructor.
      * by exists 1577836800000000.
      * by exists 1577880420000000.
Defined.

(** ** The exporter: failure in the middle, and a second run *)

Lemma string_length_app (s t : string) :
  String.length (s +:+ t) = (String.length s + String.length t)%nat.
Proof. induction s as [|a s IH]; simpl; [done |]. by rewrite IH. Qed.

Lemma string_app_inv_tail (s1 s2 t : string) :
  s1 +:+ t = s2 +:+ t → s1 = s2.
Proof.
  revert s2. induction s1 as [|a s1 IH]; intros [|b s2] H; simpl in H.
  - done.
  - apply (f_equal String.length) in H.
    rewrite !string_length_app in H. simpl in H.
    rewrite ?string_length_app in H. lia.
  - apply (f_equal String.length) in H.
    rewrite !string_length_app in H. simpl in H.
    rewrite ?string_length_app in H. lia.
  - injection H as -> H. f_equal. by apply IH.
Qed.

Lemma feature_file_inj (dir : path) (f g : string) :
  feature_file dir f = feature_file dir g → f = g.
Proof.
  unfold feature_file, join. intros H. apply app_inv_head in H.
  injection H as H. by apply string_app_inv_tail in H.
Qed.

Lemma feature_files_NoDup_of (dir : path) (columns : list string) :
  NoDup columns → NoDup (feature_file dir <$> columns).
Proof.
  intros Hnd. apply NoDup_fmap_2; [| done].
  intros f g. apply feature_file_inj.
Qed.

Lemma for_each_app {A} (l1 l2 : list A) (body : A → M unit) (w : world) :
  for_each (l1 ++ l2) body w
  = match for_each l1 body w with
    | (Ok _, w1) => for_each l2 body w1
    | (Raise e, w1) => (Raise e, w1)
    end.
Proof.
  revert w. induction l1 as [|a l1 IH]; intros w; simpl; [done |].
  unfold bind. destruct (body a w) as [[[]|e] w1]; [| done].
  apply IH.
Qed.

Lemma get_column_missing (df : DataFrame) (c : string) :
  c ∉ schema df → get_column df c ≫= to_numpy = Raise (ColumnNotFoundError c).
Proof. intros Hc. unfold get_column. by rewrite decide_False. Qed.

(** When the frame lacks one of the columns, [save_each_series] fails with
    [ColumnNotFoundError] for that column, and there is no rollback: the
    directory has been made and the files of the columns before the
    missing one have been written, with their columns in them; nothing is
    written for the missing column or for the columns after it. *)
Theorem save_each_series_stops_at_missing_column
    (this_series_df : DataFrame) (before after : list string) (c : string)
    (output_dir : path) (w : world) (t' : gmap path node) :
  output_dir ≠ [] →
  make_dirs [] output_dir (fs w) = Ok t' →
  NoDup before →
  Forall (has_numeric_column this_series_df) before →
  Forall (fun f => is_dir t' (feature_file output_dir f) = false) before →
  c ∉ schema this_series_df →
  ∃ w',
    save_each_series this_series_df (before ++ c :: after) output_dir w
    = (Raise (ColumnNotFoundError c), w')
    ∧ io_log w'
      = io_log w ++ IOMkdir output_dir
          :: (IOSave ∘ feature_file output_dir <$> before)
    ∧ fs w' !! output_dir = Some Dir
    ∧ (∀ f, f ∈ before →
         ∃ x, fs w' !! feature_file output_dir f = Some (Npy x)
              ∧ is_column this_series_df f x)
    ∧ (∀ p, p ∉ feature_file output_dir <$> before → fs w' !! p = t' !! p).
Proof.
  intros Hne Hmk Hnd Hnum Hfree Hc.
  set (w1 := {| fs := t'; io_log := io_log w ++ [IOMkdir output_dir];
                console := console w |}).
  pose proof (make_dirs_spec _ _ _ _ Hmk) as (Hdir & _ & _).
  simpl in Hdir. specialize (Hdir Hne).
  destruct (save_loop this_series_df output_dir before w1)
    as (w' & Hrun & Hlog & _ & Hother & Hfiles).
  { by apply is_dir_lookup. }
  { done. }
  { done. }
  { by apply feature_files_NoDup_of. }
  assert (output_dir ∉ feature_file output_dir <$> before) as Hdirfile.
  { intros (f & Heq & _)%list_elem_of_fmap. symmetry in Heq.
    by apply join_neq in Heq. }
  exists w'. split; [| split; [| split; [| split]]].
  - unfold save_each_series. unfold bind at 1.
    rewrite (mkdir_ok output_dir w t' Hmk).
    rewrite for_each_app. unfold w1 in Hrun. rewrite Hrun. simpl.
    unfold bind at 1. unfold bind at 1. unfold lift.
    by rewrite get_column_missing.
  - rewrite Hlog. simpl. by rewrite <- app_assoc.
  - rewrite Hother by done. exact Hdir.
  - intros f Hf. destruct (Hfiles f Hf) as (x & Hx & Hcol & _). eauto.
  - exact Hother.
Qed.

Lemma save_each_series_stops_at_missing_column_witness :
  ∃ w',
    save_each_series sample_features ["anglez"; "enmo"; "step"; "hour_sin"]
      ["processed"; "train"; "A"]
      {| fs := {[ ["processed"] := Dir ]}; io_log := []; console := [] |}
    = (Raise (ColumnNotFoundError "step"), w')
    ∧ io_log w'
      = [ IOMkdir ["processed"; "train"; "A"];
          IOSave ["processed"; "train"; "A"; "anglez.npy"];
          IOSave ["processed"; "train"; "A"; "enmo.npy"] ]
    ∧ fs w' !! ["processed"; "train"; "A"] = Some Dir.
Proof.
  destruct (save_each_series_stops_at_missing_column sample_features
              ["anglez"; "enmo"] ["hour_sin"] "step"
              ["processed"; "train"; "A"]
              {| fs := {[ ["processed"] := Dir ]}; io_log := []; console := [] |}
              (<[ ["processed"; "train"; "A"] := Dir ]>
                 (<[ ["processed"; "train"] := Dir ]> {[ ["processed"] := Dir ]})))
    as (w' & Hrun & Hlog & Hdir & _).
  - done.
  - vm_compute. reflexivity.
  - apply (bool_decide_unpack _). vm_compute. exact I.
  - repeat constructor; try (apply (bool_decide_unpack _); vm_compute; exact I);
      eexists; split; reflexivity.
  - repeat constructor.
  - apply (bool_decide_unpack _). vm_compute. exact I.
  - exists w'. split; [exact Hrun |]. split; [exact Hlog | exact Hdir].
Defined.

Lemma prefix_same_length (q l L : path) :
  q `prefix_of` L → l `prefix_of` L → length q = length l → q = l.
Proof.
  intros [k1 ->] [k2 Heq] Hlen.
  apply (f_equal (take (length q))) in Heq.
  rewrite take_app_length in Heq. rewrite Hlen in Heq.
  by rewrite take_app_length in Heq.
Qed.

Lemma make_dirs_prefixes (rest : list string) (done : path)
    (t t' : gmap path node) (q : path) :
  make_dirs done rest t = Ok t' →
  q `prefix_of` done ++ rest → (length done < length q)%nat →
  t' !! q = Some Dir.
Proof.
  revert done t. induction rest as [|name rest IH]; intros done t Hmk Hpre Hlen.
  - rewrite app_nil_r in Hpre. apply prefix_length in Hpre. lia.
  - assert (done ++ name :: rest = (done ++ [name]) ++ rest) as Happ
      by (by rewrite <- app_assoc).
    assert (length (done ++ [name]) = S (length done)) as Hl
      by (rewrite length_app; simpl; lia).
    assert (t' !! (done ++ [name]) = Some Dir) as Hfirst.
    { apply make_dirs_app with (r1 := [name]) in Hmk as (t1 & H1 & H2).
      apply make_dirs_spec in H1 as (Hd & _ & _).
      apply make_dirs_spec in H2 as (_ & Hmono & _).
      apply Hmono, Hd. done. }
    destruct (decide (length q = S (length done))) as [Heq|Hneq].
    + replace q with (done ++ [name]); [done |].
      symmetry. apply (prefix_same_length _ _ (done ++ name :: rest)); [done | | lia].
      rewrite Happ. by apply prefix_app_r.
    + simpl in Hmk. change (join done name) with (done ++ [name]) in Hmk.
      rewrite Happ in Hpre.
      destruct (t !! (done ++ [name])) as [[| |]|] eqn:Hq.
      * eapply IH; [exact Hmk | done | lia].
      * destruct rest; done.
      * destruct rest; done.
      * eapply IH; [exact Hmk | done | lia].
Qed.

Lemma make_dirs_id (rest : list string) (above : path) (t : gmap path node) :
  (∀ q, q `prefix_of` above ++ rest → (length above < length q)%nat →
        t !! q = Some Dir) →
  make_dirs above rest t = Ok t.
Proof.
  revert above. induction rest as [|name rest IH]; intros above Hdirs; [done |].
  simpl. change (join above name) with (above ++ [name]).
  assert (above ++ name :: rest = (above ++ [name]) ++ rest) as Happ
    by (by rewrite <- app_assoc).
  rewrite Hdirs.
  - apply IH. intros q Hq Hlen. apply Hdirs; [by rewrite Happ |].
    rewrite length_app in Hlen. simpl in Hlen. lia.
  - rewrite Happ. by apply prefix_app_r.
  - rewrite length_app. simpl. lia.
Qed.

Lemma is_column_functional (df : DataFrame) (name : string) (x y : list value) :
  is_column df name x → is_column df name y → x = y.
Proof.
  unfold is_column. generalize (rows df). intros l Hx. revert y.
  induction Hx as [|r v l x Hv _ IH]; intros y Hy.
  - by apply Forall2_nil_inv_l in Hy.
  - apply Forall2_cons_inv_l in Hy as (v' & y' & Hv' & Hy' & ->).
    f_equal; [congruence | by apply IH].
Qed.

Lemma is_dir_file (t : gmap path node) (p : path) (x : list value) :
  p ≠ [] → t !! p = Some (Npy x) → is_dir t p = false.
Proof. intros Hne Hp. unfold is_dir. destruct p; [done |]. by rewrite Hp. Qed.

(** An export can be repeated: after a successful [save_each_series], a
    second call with the same frame, columns and directory succeeds too
    and leaves the file system as the first call left it. *)
Theorem save_each_series_twice
    (this_series_df : DataFrame) (columns : list string)
    (output_dir : path) (w : world) (t' : gmap path node) :
  output_dir ≠ [] →
  make_dirs [] output_dir (fs w) = Ok t' →
  NoDup columns →
  Forall (has_numeric_column this_series_df) columns →
  Forall (fun f => is_dir t' (feature_file output_dir f) = false) columns →
  ∃ w1 w2,
    save_each_series this_series_df columns output_dir w = (Ok tt, w1)
    ∧ save_each_series this_series_df columns output_dir w1 = (Ok tt, w2)
    ∧ fs w2 = fs w1
    ∧ io_log w2
      = io_log w1 ++ IOMkdir output_dir
          :: (IOSave ∘ feature_file output_dir <$> columns).
Proof.
  intros Hne Hmk Hnd Hnum Hfree.
  pose proof (feature_files_NoDup_of output_dir columns Hnd) as Hndf.
  pose proof (make_dirs_spec _ _ _ _ Hmk) as (Hdir & _ & _).
  simpl in Hdir. specialize (Hdir Hne).
  destruct (save_loop this_series_df output_dir columns
              {| fs := t'; io_log := io_log w ++ [IOMkdir output_dir];
                 console := console w |})
    as (w1 & Hrun1 & _ & _ & Hother1 & Hfiles1);
    [by apply is_dir_lookup | done | done | done |].
  simpl in Hother1.
  assert (∀ q, q `prefix_of` output_dir → q ∉ feature_file output_dir <$> columns)
    as Hprefix_not_file.
  { intros q Hq (f & -> & _)%list_elem_of_fmap.
    apply prefix_length in Hq. unfold feature_file, join in Hq.
    rewrite length_app in Hq. simpl in Hq. lia. }
  assert (make_dirs [] output_dir (fs w1) = Ok (fs w1)) as Hmk1.
  { apply make_dirs_id. intros q Hq Hlen. simpl in Hq.
    rewrite Hother1 by (by apply Hprefix_not_file).
    by apply (make_dirs_prefixes output_dir [] (fs w) t'). }
  destruct (save_loop this_series_df output_dir columns
              {| fs := fs w1; io_log := io_log w1 ++ [IOMkdir output_dir];
                 console := console w1 |})
    as (w2 & Hrun2 & Hlog2 & _ & Hother2 & Hfiles2); [| done | | done |].
  { simpl. apply is_dir_lookup. rewrite Hother1 by (by apply Hprefix_not_file).
    done. }
  { apply Forall_forall. intros f Hf. simpl.
    destruct (Hfiles1 f Hf) as (x & Hx & _).
    apply (is_dir_file _ _ x); [| done].
    unfold feature_file, join. by destruct output_dir. }
  simpl in Hother2, Hlog2.
  exists w1, w2. split; [| split; [| split]].
  - unfold save_each_series. unfold bind at 1.
    rewrite (mkdir_ok output_dir w t' Hmk). exact Hrun1.
  - unfold save_each_series. unfold bind at 1.
    rewrite (mkdir_ok output_dir w1 (fs w1) Hmk1). exact Hrun2.
  - apply map_eq. intros p.
    destruct (decide (p ∈ feature_file output_dir <$> columns)) as [Hin|Hnot].
    + apply list_elem_of_fmap in Hin as (f & -> & Hf).
      destruct (Hfiles1 f Hf) as (x1 & -> & Hc1 & _).
      destruct (Hfiles2 f Hf) as (x2 & -> & Hc2 & _).
      by rewrite (is_column_functional _ _ _ _ Hc1 Hc2).
    + by apply Hother2.
  - rewrite Hlog2. by rewrite <- app_assoc.
Qed.

Lemma save_each_series_twice_witness :
  ∃ w1 w2,
    save_each_series sample_features FEATURE_NAMES ["processed"; "train"; "A"]
      {| fs := {[ ["processed"] := Dir ]}; io_log := []; console := [] |}
    = (Ok tt, w1)
    ∧ save_each_series sample_features FEATURE_NAMES ["processed"; "train"; "A"] w1
      = (Ok tt, w2)
    ∧ fs w2 = fs w1.
Proof.
  destruct (save_each_series_twice sample_features FEATURE_NAMES
              ["processed"; "train"; "A"]
              {| fs := {[ ["processed"] := Dir ]}; io_log := []; console := [] |}
              (<[ ["processed"; "train"; "A"] := Dir ]>
                 (<[ ["processed"; "train"] := Dir ]> {[ ["processed"] := Dir ]})))
    as (w1 & w2 & H1 & H2 & Hfs & _).
  - done.
  - vm_compute. reflexivity.
  - apply (bool_decide_unpack _). vm_compute. exact I.
  - repeat constructor; try (apply (bool_decide_unpack _); vm_compute; exact I);
      eexists; split; reflexivity.
  - repeat constructor.
  - exists w1, w2. split; [exact H1 |]. split; [exact H2 | exact Hfs].
Defined.

(** ** The driver, whatever the configuration and the file system *)

Lemma remove_processed_dir_not_a_directory (cfg : PrepareDataConfig)
    (w : world) (n : node) :
  fs w !! phase_dir cfg = Some n → n ≠ Dir →
  remove_processed_dir cfg (phase_dir cfg) w
  = (Raise (NotADirectoryError (phase_dir cfg)),
     {| fs := fs w;
        io_log := io_log w ++ [IOExists (phase_dir cfg); IORmtree (phase_dir cfg)];
        console := console w |}).
Proof.
  intros Hn Hne. unfold remove_processed_dir, path_exists, rmtree.
  unfold bind, log_io, get_fs, put_fs, print, ret. simpl. rewrite Hn.
  rewrite bool_decide_eq_true_2 by eauto. cbn. rewrite Hn.
  rewrite <- app_assoc. by destruct n.
Qed.

Lemma scan_series_effect (cfg : PrepareDataConfig) (w : world) :
  ∃ r evs,
    scan_series cfg w
    = (r, {| fs := fs w; io_log := io_log w ++ evs; console := console w |})
    ∧ Forall (fun ev => reads_or_removes ev = true) evs.
Proof.
  assert (∀ p, ∃ r,
    scan_parquet p w
    = (r, {| fs := fs w; io_log := io_log w ++ [IOScan p]; console := console w |}))
    as Hscan.
  { intros p. unfold scan_parquet, bind, log_io, get_fs, ret, raise. simpl.
    destruct (fs w !! p) as [[| |]|]; eauto. }
  unfold scan_series.
  destruct (decide (phase cfg ∈ ["train"; "test"])).
  - destruct (Hscan (join (data_dir (dir cfg)) (phase cfg +:+ "_series.parquet")))
      as [r Hr].
    exists r, [IOScan (join (data_dir (dir cfg)) (phase cfg +:+ "_series.parquet"))].
    split; [done |]. by repeat constructor.
  - destruct (decide (phase cfg = "dev")).
    + destruct (Hscan (join (processed_dir (dir cfg))
                         (phase cfg +:+ "_series.parquet"))) as [r Hr].
      exists r, [IOScan (join (processed_dir (dir cfg))
                           (phase cfg +:+ "_series.parquet"))].
      split; [done |]. by repeat constructor.
    + exists (Raise (ValueError ("Invalid phase: " +:+ phase cfg))), [].
      split; [| constructor]. unfold raise. rewrite app_nil_r. by destruct w.
Qed.

(** [main] never completes and never exports anything: for every
    configuration whose phase is a plain file name and every file system
    it ends with an exception, and all it has done by then is to test for
    paths, delete a tree or scan an input.  It makes no directory and
    saves no array; every entry of the file system afterwards was there
    before, and everything outside the output directory of the phase is as
    it was. *)
Theorem main_never_exports (strptime : string → string → option Z)
    (cfg : PrepareDataConfig) (w : world) :
  plain_name (phase cfg) = true →
  ∃ e w' evs,
    main strptime cfg w = (Raise e, w')
    ∧ io_log w' = io_log w ++ evs
    ∧ Forall (fun ev => reads_or_removes ev = true) evs
    ∧ (∀ p n, fs w' !! p = Some n → fs w !! p = Some n)
    ∧ (∀ p, ¬ phase_dir cfg `prefix_of` p → fs w' !! p = fs w !! p).
Proof.
  intros _.
  destruct (fs w !! phase_dir cfg) as [n|] eqn:Hd.
  - assert (n = Dir ∨ n ≠ Dir) as [->|Hn] by (destruct n; auto).
    + rewrite main_run by auto.
      destruct (scan_series_effect cfg (after_removal cfg w))
        as (r & evs & Hscan & Hevs).
      rewrite Hscan.
      exists (match r with Ok _ => NameError "deg_to_rad" | Raise e => e end).
      eexists. exists ([IOExists (phase_dir cfg); IORmtree (phase_dir cfg)] ++ evs).
      split; [by destruct r |]. simpl.
      unfold after_removal. rewrite Hd.
      rewrite bool_decide_eq_true_2 by eauto. simpl.
      split; [by rewrite <- app_assoc |].
      split; [by repeat constructor |].
      split.
      * intros p n. rewrite lookup_remove_tree. by case_decide.
      * intros p Hp. rewrite lookup_remove_tree. by rewrite decide_False.
    + eexists _, _, [IOExists (phase_dir cfg); IORmtree (phase_dir cfg)].
      split.
      { unfold main. unfold bind at 1.
        change (join (processed_dir (dir cfg)) (phase cfg)) with (phase_dir cfg).
        by rewrite (remove_processed_dir_not_a_directory cfg w n). }
      simpl. split; [done |]. split; [by repeat constructor |]. done.
  - rewrite main_run by auto.
    destruct (scan_series_effect cfg (after_removal cfg w))
      as (r & evs & Hscan & Hevs).
    rewrite Hscan.
    exists (match r with Ok _ => NameError "deg_to_rad" | Raise e => e end).
    eexists. exists (IOExists (phase_dir cfg) :: evs).
    split; [by destruct r |]. simpl.
    unfold after_removal. rewrite Hd.
    rewrite bool_decide_eq_false_2 by (by intros [? ?]). simpl.
    split; [by rewrite <- app_assoc |].
    split; [by constructor |]. done.
Qed.

Lemma main_never_exports_witness :
  ∃ e w' evs,
    main sample_strptime (sample_cfg "test") (sample_world "test") = (Raise e, w')
    ∧ io_log w' = evs
    ∧ Forall (fun ev => reads_or_removes ev = true) evs
    ∧ fs w' !! ["data"; "test_series.parquet"] = Some (Parquet sample_table).
Proof.
  destruct (main_never_exports sample_strptime (sample_cfg "test")
              (sample_world "test"))
    as (e & w' & evs & Hrun & Hlog & Hevs & _ & Hout); [reflexivity |].
  exists e, w', evs. split; [exact Hrun |]. split; [exact Hlog |].
  split; [exact Hevs |].
  rewrite Hout; [reflexivity |].
  apply (bool_decide_unpack _). vm_compute. exact I.
Defined.

(** For the phase dev the input table lies beside the output directory of
    the phase, not in it: deleting the output directory never deletes the
    input, which the scan then finds. *)
Theorem dev_input_survives (cfg : PrepareDataConfig) (w : world)
    (table : DataFrame) :
  phase cfg = "dev" →
  fs w !! phase_dir cfg = None ∨ fs w !! phase_dir cfg = Some Dir →
  fs w !! join (processed_dir (dir cfg)) "dev_series.parquet"
  = Some (Parquet table) →
  ∃ w1 w2,
    remove_processed_dir cfg (phase_dir cfg) w = (Ok tt, w1)
    ∧ fs w1 !! join (processed_dir (dir cfg)) "dev_series.parquet"
      = Some (Parquet table)
    ∧ scan_series cfg w1 = (Ok table, w2)
    ∧ fs w2 = fs w1.
Proof.
  intros Hphase Hd Hin.
  assert (input_path cfg = join (processed_dir (dir cfg)) "dev_series.parquet")
    as Hpath.
  { unfold input_path. rewrite Hphase. rewrite decide_False; [done |].
    intros H. apply (bool_decide_pack _) in H. vm_compute in H. done. }
  assert (¬ phase_dir cfg `prefix_of`
            join (processed_dir (dir cfg)) "dev_series.parquet") as Hpre.
  { unfold phase_dir, join. rewrite Hphase. intros [k Hk].
    rewrite <- app_assoc in Hk. apply app_inv_head in Hk. simpl in Hk.
    by injection Hk. }
  exists (after_removal cfg w). eexists.
  split; [by apply remove_processed_dir_run |].
  split; [by rewrite after_removal_elsewhere |].
  split.
  - apply scan_series_valid.
    + rewrite Hphase. apply (bool_decide_unpack _). vm_compute. exact I.
    + rewrite Hpath. by rewrite after_removal_elsewhere.
  - done.
Qed.

Lemma dev_input_survives_witness :
  ∃ w1 w2,
    remove_processed_dir (sample_cfg "dev") ["processed"; "dev"] (sample_world "dev")
    = (Ok tt, w1)
    ∧ fs w1 !! ["processed"; "dev_series.parquet"] = Some (Parquet sample_table)
    ∧ scan_series (sample_cfg "dev") w1 = (Ok sample_table, w2).
Proof.
  destruct (dev_input_survives (sample_cfg "dev") (sample_world "dev") sample_table)
    as (w1 & w2 & H1 & H2 & H3 & _).
  - reflexivity.
  - right. vm_compute. reflexivity.
  - vm_compute. reflexivity.
  - exists w1, w2. split; [exact H1 |]. split; [exact H2 | exact H3].
Defined.

(** ** The loop over the series *)

Lemma add_to_group_not_nil (k : string) (r : list value)
    (groups : list (string * list (list value))) :
  add_to_group k r groups ≠ [].
Proof. destruct groups as [|[k' rs] groups]; simpl; [done |]. by case_decide. Qed.

Lemma group_fold_nil (keyed : list (string * list value))
    (groups : list (string * list (list value))) :
  foldl (fun groups kr => add_to_group kr.1 kr.2 groups) groups keyed = [] →
  groups = [] ∧ keyed = [].
Proof.
  revert groups. induction keyed as [|kr keyed IH]; intros groups H; [done |].
  simpl in H. apply IH in H as [H _]. by apply add_to_group_not_nil in H.
Qed.

Lemma group_by_nil (df : DataFrame) : group_by df = Ok [] → rows df = [].
Proof.
  unfold group_by. destruct (missing_column df ["series_id"]); [done |].
  destruct (mapM (fun r => k ← series_id_of df r; Ok (k, r)) (rows df))
    as [keyed|e] eqn:Hkeyed; [| done].
  simpl. intros H. injection H as H. apply fmap_nil_inv in H.
  apply group_fold_nil in H as [_ ->].
  apply mapM_res_Ok, Forall2_length in Hkeyed.
  by apply nil_length_inv.
Qed.

(** The loop of [main] over the series never writes anything: whatever
    the frame, the output directory and the state, it leaves the file
    system, the record of I/O operations and the console as they are; and
    on a frame that has a row it ends with an exception, raised for the
    first series before its directory is made. *)
Theorem save_features_never_writes (processed_dir : path)
    (series_df : DataFrame) (n : nat) (w : world) :
  ∃ r,
    save_features processed_dir series_df n w = (r, w)
    ∧ (rows series_df ≠ [] → ∃ e, r = Raise e).
Proof.
  unfold save_features. unfold bind at 1. unfold lift at 1.
  destruct (group_by series_df) as [groups|e] eqn:Hgroups.
  - destruct groups as [|[series_id this_series_df] groups].
    + exists (Ok tt). split; [done |].
      intros Hne. by apply group_by_nil in Hgroups.
    + unfold tqdm. simpl. unfold bind at 1. unfold bind at 1. unfold lift at 1.
      destruct (add_feature_Raise this_series_df) as [e ->].
      exists (Raise e). split; [done |]. eauto.
  - exists (Raise e). split; [done |]. eauto.
Qed.

(** With no rows there is no group: on a frame with a series_id column
    and no row the loop of [main] does nothing and returns; no directory
    is made, not even the output directory of the phase. *)
Theorem save_features_no_rows (processed_dir : path) (series_df : DataFrame)
    (n : nat) (w : world) :
  rows series_df = [] →
  "series_id" ∈ schema series_df →
  save_features processed_dir series_df n w = (Ok tt, w).
Proof.
  intros Hrows Hschema. unfold save_features, group_by.
  rewrite missing_column_None by (by repeat constructor).
  rewrite Hrows. reflexivity.
Qed.

Lemma save_features_no_rows_witness :
  save_features ["processed"; "train"]
    {| schema := ["series_id"; "anglez"; "enmo"; "timestamp"; "anglez_rad"];
       rows := [] |} 0
    {| fs := {[ ["processed"] := Dir ]}; io_log := []; console := [] |}
  = (Ok tt, {| fs := {[ ["processed"] := Dir ]}; io_log := []; console := [] |}).
Proof.
  apply (save_features_no_rows ["processed"; "train"]
           {| schema := ["series_id"; "anglez"; "enmo"; "timestamp"; "anglez_rad"];
              rows := [] |} 0).
  - reflexivity.
  - apply (bool_decide_unpack _). vm_compute. exact I.
Defined.
